(** * zouppp: PPPoE discovery and PPP multiplexing

    A shallow embedding of two Go packages:

    - [lcp]   (src/lcp/ppp.go): the PPP frame codec and the protocol
      multiplexer with its channel registry and protocol-reject path;
    - [pppoe] (second part of src/datapath/datapath_linux.go): the PPPoE
      discovery engine ([Dial], [Close], [WriteTo], [getResponse]).

    Go values are modelled as follows.  A [[]byte] is a [list byte]; fixed
    width unsigned integers are [Z] with the wrap-around written out; a
    method with a pointer receiver is a function from the receiver's state
    to an outcome carrying the new state; a Go [error] result is a
    [result]; a run-time panic and a goroutine that blocks are explicit
    outcomes.  Channels live in a store indexed by references, so that two
    holders of one channel see the same buffer. *)

From Stdlib Require Import ZArith Lia Strings.Byte Strings.String.
From stdpp Require Import base option list gmap.

Open Scope Z_scope.

(** ** Bytes and big-endian integers ([encoding/binary]) *)

Abbreviation bytes := (list byte).

#[export] Instance byte_eq_decision : EqDecision byte := Byte.byte_eq_dec.

Definition Z_of_byte (b : byte) : Z := Z.of_N (Byte.to_N b).

(** Go's conversion [byte(v)]: the low eight bits. *)
Definition byte_of_Z (v : Z) : byte :=
  default x00 (Byte.of_N (Z.to_N (v mod 256))).

Module binary.

(** [binary.BigEndian.PutUint16(buf, v)] on a fresh two-byte [buf]. *)
Definition PutUint16 (v : Z) : bytes :=
  [byte_of_Z (Z.shiftr v 8); byte_of_Z v].

(** [binary.BigEndian.Uint16(b)]; Go panics on a slice shorter than two
    bytes, every caller below passes exactly two. *)
Definition Uint16 (b : bytes) : Z :=
  match b with
  | b0 :: b1 :: _ => Z.lor (Z_of_byte b1) (Z.shiftl (Z_of_byte b0) 8)
  | _ => 0
  end.

End binary.

(** A Go call that returns [(value, error)]. *)
Inductive result (E A : Type) : Type :=
| Ok (a : A)
| Err (e : E).
Arguments Ok {E A} a.
Arguments Err {E A} e.

(** What a call does to the state [S] of its receiver: it returns, it
    panics, or its goroutine stays blocked for ever in the state shown. *)
Inductive outcome (S A : Type) : Type :=
| Done (a : A) (s : S)
| Panicked (s : S)
| Blocks (s : S).
Arguments Done {S A} a s.
Arguments Panicked {S A} s.
Arguments Blocks {S A} s.

(** ** Package lcp: PPP frames and the multiplexer *)

Module lcp.

Inductive error : Type :=
| ErrInvalidLength (n : nat)   (* "invalid PPP packet length %d" *)
| ErrPayload.                  (* an error of the payload's Serialize *)

(** The [Serializer] interface. *)
Class Serializer (A : Type) := Serialize : A -> result error bytes.

(** Modelled from the spec: [NewStaticSerializer] is declared in another
    file of the package; a frame's payload is its bytes, so a static
    serializer holds a byte slice and serializes to it. *)
Record StaticSerializer := NewStaticSerializer { static_bytes : bytes }.

#[export] Instance StaticSerializer_Serialize : Serializer StaticSerializer :=
  fun s => Ok (static_bytes s).

(** [type PPPPacket struct { Proto; Payload Serializer }] *)
Record PPPPacket (A : Type) := { Proto : Z; Payload : A }.
Arguments Proto {A} _.
Arguments Payload {A} _.

Definition NewPPPPkt {A} (data : A) (proto : Z) : PPPPacket A :=
  {| Proto := proto; Payload := data |}.

(** [PPPPacket.Serialize] *)
Definition PPPPacket_Serialize {A} `{Serializer A} (pppPkt : PPPPacket A)
  : result error bytes :=
  let buf := binary.PutUint16 (Proto pppPkt) in
  match Serialize (Payload pppPkt) with
  | Err e => Err e
  | Ok body => Ok (buf ++ body)
  end.

(** [PPPPacket.Parse]: the receiver is overwritten on success only,
    so the parsed packet is the result. *)
Definition PPPPacket_Parse (buf : bytes)
  : result error (PPPPacket StaticSerializer) :=
  if decide (length buf <= 2)%nat
  then Err (ErrInvalidLength (length buf))
  else Ok {| Proto := binary.Uint16 (take 2 buf);
             Payload := NewStaticSerializer (drop 2 buf) |}.


(** *** Channels

    A [chan []byte] is a reference into a store of channels.  The zero
    value of a channel variable is [nil], which is what a map lookup of an
    absent key yields; it is modelled by [None]. *)

Record Chan := { buf : list bytes; closed : bool; cap : nat }.

Abbreviation chanref := (option nat).

(** [sync.RWMutex], as far as one goroutine at a time can observe it.
    [WLocked] stands for a writer that holds the lock or has called [Lock]
    and waits for the readers to leave: in both cases a further [RLock]
    and a further [Lock] block. *)
Inductive RWMutex : Type :=
| Unlocked
| RLocked (readers : nat)   (* readers in excess of the first *)
| WLocked.

(** [type PPP struct]; [conn] and [logger] take no part in the registry
    and are left out, [chans] and [nextChan] are the store the channel
    references point into. *)
Record PPP := {
  relayChanList : gmap Z nat;
  sendChan : chanref;
  relayChanListLock : RWMutex;
  reqID : Z;                     (* uint8 *)
  chans : gmap nat Chan;
  nextChan : nat
}.

Definition set_relayChanList (m : gmap Z nat) (ppp : PPP) : PPP :=
  {| relayChanList := m; sendChan := sendChan ppp;
     relayChanListLock := relayChanListLock ppp; reqID := reqID ppp;
     chans := chans ppp; nextChan := nextChan ppp |}.

Definition set_lock (l : RWMutex) (ppp : PPP) : PPP :=
  {| relayChanList := relayChanList ppp; sendChan := sendChan ppp;
     relayChanListLock := l; reqID := reqID ppp;
     chans := chans ppp; nextChan := nextChan ppp |}.

Definition set_reqID (v : Z) (ppp : PPP) : PPP :=
  {| relayChanList := relayChanList ppp; sendChan := sendChan ppp;
     relayChanListLock := relayChanListLock ppp; reqID := v;
     chans := chans ppp; nextChan := nextChan ppp |}.

Definition set_chans (h : gmap nat Chan) (ppp : PPP) : PPP :=
  {| relayChanList := relayChanList ppp; sendChan := sendChan ppp;
     relayChanListLock := relayChanListLock ppp; reqID := reqID ppp;
     chans := h; nextChan := nextChan ppp |}.

(** A small state monad over [outcome]. *)
Definition M (A : Type) : Type := PPP -> outcome PPP A.

Definition ret {A} (a : A) : M A := fun s => Done a s.

Definition bind {A B} (m : M A) (k : A -> M B) : M B :=
  fun s =>
    match m s with
    | Done a s' => k a s'
    | Panicked s' => Panicked s'
    | Blocks s' => Blocks s'
    end.

#[export] Instance M_ret : MRet M := @ret.
#[export] Instance M_bind : MBind M := fun A B k m => bind m k.

(** A step that only changes the state, and one that only reads it. *)
Definition modify (f : PPP -> PPP) : M unit := fun s => Done tt (f s).
Definition gets {A} (f : PPP -> A) : M A := fun s => Done (f s) s.

(** [defer f()] around a body: [f] runs when the body returns and when it
    panics, not while it is blocked. *)
Definition defer {A} (body : M A) (f : PPP -> PPP) : M A :=
  fun s =>
    match body s with
    | Done a s' => Done a (f s')
    | Panicked s' => Panicked (f s')
    | Blocks s' => Blocks s'
    end.

(** [make(chan []byte, n)] *)
Definition make_chan (n : nat) : M nat :=
  fun s =>
    let r := nextChan s in
    Done r
      {| relayChanList := relayChanList s; sendChan := sendChan s;
         relayChanListLock := relayChanListLock s; reqID := reqID s;
         chans := <[r := {| buf := []; closed := false; cap := n |}]> (chans s);
         nextChan := S r |}.

(** The channel after [v] has been sent on it. *)
Definition pushed (c : Chan) (v : bytes) : Chan :=
  {| buf := buf c ++ [v]; closed := closed c; cap := cap c |}.

(** [ch <- v]: a nil channel and a full channel block, a closed channel
    panics. *)
Definition chan_send (ch : chanref) (v : bytes) : M unit :=
  fun s =>
    match ch with
    | None => Blocks s
    | Some r =>
      match chans s !! r with
      | None => Blocks s
      | Some c =>
        if closed c then Panicked s
        else if decide (length (buf c) < cap c)%nat
        then Done tt (set_chans (<[r := pushed c v]> (chans s)) s)
        else Blocks s
      end
    end.

(** [close(ch)]: closing a nil channel or a closed channel panics. *)
Definition chan_close (ch : chanref) : M unit :=
  fun s =>
    match ch with
    | None => Panicked s
    | Some r =>
      match chans s !! r with
      | None => Panicked s
      | Some c =>
        if closed c then Panicked s
        else Done tt (set_chans
               (<[r := {| buf := buf c; closed := true; cap := cap c |}]>
                  (chans s)) s)
      end
    end.

(** [Lock]: on a lock that is held the caller blocks, and from then on
    it is a waiting writer, which holds new readers back. *)
Definition Lock : M unit :=
  fun s =>
    match relayChanListLock s with
    | Unlocked => Done tt (set_lock WLocked s)
    | _ => Blocks (set_lock WLocked s)
    end.

Definition Unlock (s : PPP) : PPP := set_lock Unlocked s.

Definition RLock : M unit :=
  fun s =>
    match relayChanListLock s with
    | Unlocked => Done tt (set_lock (RLocked 0) s)
    | RLocked n => Done tt (set_lock (RLocked (S n)) s)
    | WLocked => Blocks s
    end.

(** [RUnlock], by a reader that holds the lock: behind the last reader
    the lock is free, unless a writer waits, who has it then. *)
Definition RUnlock (s : PPP) : PPP :=
  match relayChanListLock s with
  | RLocked (S n) => set_lock (RLocked n) s
  | WLocked => s
  | _ => set_lock Unlocked s
  end.

Definition relayChanDepth : nat := 128.
Definition sendCHanDepth : nat := 128.
Definition MaxPPPMsgSize : nat := 1500.

(** [NewPPP], without the two goroutines it starts. *)
Definition NewPPP : PPP :=
  {| relayChanList := ∅;
     sendChan := Some 0%nat;
     relayChanListLock := Unlocked;
     reqID := 0;
     chans := {[ 0%nat := {| buf := []; closed := false; cap := sendCHanDepth |} ]};
     nextChan := 1 |}.

(** [PPP.Register] *)
Definition Register (p : Z) : M (chanref * chanref) :=
  ch ← make_chan relayChanDepth;
  Lock;;
  modify (fun s => set_relayChanList (<[p := ch]> (relayChanList s)) s);;
  modify Unlock;;
  send ← gets sendChan;
  mret (send, Some ch).

(** [PPP.UnRegister]: the lock is released by a plain call at the end, so
    a panic in [close] leaves it held. *)
Definition UnRegister (p : Z) : M unit :=
  Lock;;
  ch ← gets (fun s => relayChanList s !! p);
  chan_close ch;;
  modify (fun s => set_relayChanList (delete p (relayChanList s)) s);;
  modify Unlock.

(** A send on [ch] goes through at once: the channel is open and its
    buffer has room. *)
Definition ready (s : PPP) (ch : chanref) : bool :=
  match ch with
  | Some r =>
    match chans s !! r with
    | Some c => negb (closed c) && bool_decide (length (buf c) < cap c)%nat
    | None => false
    end
  | None => false
  end.

(** *** Protocol reject and relay *)

(** The LCP packet of the package's packet codec, with the fields that
    ppp.go assigns. *)
Record Pkt := { PktProto : Z; Code : Z; ID : Z; PktPayload : bytes }.

(** The declarations of the package that ppp.go uses and that live in
    other files: the protocol numbers, the LCP message code, and the
    constructor and the serializer of [Pkt]. *)
Class Decls := {
  ProtoLCP : Z;
  ProtoPAP : Z;
  ProtoCHAP : Z;
  ProtoIPCP : Z;
  ProtoIPv6CP : Z;
  ProtoIPv4 : Z;
  ProtoIPv6 : Z;
  CodeProtocolReject : Z;
  NewPkt : Z -> Pkt;
  Pkt_Serialize : Pkt -> result error bytes
}.

Section Relay.
Context `{D : Decls}.

#[export] Instance Pkt_Serializer : Serializer Pkt := Pkt_Serialize.

(** The [case] list of the switch in [sendProtocolRejct]. *)
Definition known_protocols : list Z :=
  [ProtoCHAP; ProtoIPCP; ProtoLCP; ProtoPAP; ProtoIPv6CP; ProtoIPv4; ProtoIPv6].

(** The packet [sendProtocolRejct] builds for frame [b] with request id
    [id]: [NewPkt(ProtoLCP)] with its code, id and payload assigned;
    [append(proto, b...)] is the two protocol bytes and then all of [b]. *)
Definition reject_pkt (id : Z) (b : bytes) : Pkt :=
  let pkt := NewPkt ProtoLCP in
  {| PktProto := PktProto pkt;
     Code := CodeProtocolReject;
     ID := id;
     PktPayload := take 2 b ++ b |}.

(** [PPP.sendProtocolRejct].  The slice expression [b[:2]] panics when
    [b] has fewer than two bytes, the capacity of [b] being its length;
    at the only call site, in [relay], [b] has more than two bytes. *)
Definition sendProtocolRejct (b : bytes) : M unit :=
  if decide (length b < 2)%nat then fun s => Panicked s
  else
    let proto := take 2 b in
    if bool_decide (binary.Uint16 proto ∈ known_protocols) then mret tt
    else
      modify (fun s => set_reqID ((reqID s + 1) mod 256) s);;
      id ← gets reqID;
      let pkt := reject_pkt id b in
      match PPPPacket_Serialize (NewPPPPkt pkt ProtoLCP) with
      | Ok pktbytes => send ← gets sendChan; chan_send send pktbytes
      | Err _ => mret tt
      end.

(** [PPP.relay]; the result lists the arguments of the goroutines it has
    started with [go ppp.sendProtocolRejct(buf)]. *)
Definition relay (b : bytes) : M (list bytes) :=
  if decide (length b <= 2)%nat then mret []
  else
    RLock;;
    defer
      (ch ← gets (fun s => relayChanList s !! binary.Uint16 (take 2 b));
       match ch with
       | Some r => chan_send (Some r) (drop 2 b)
       | None => mret tt
       end;;
       mret [b])
      RUnlock.

(** One schedule of a received frame: [relay] runs, and the goroutines
    it started run after it has returned. *)
Fixpoint run_spawned (l : list bytes) : M unit :=
  match l with
  | [] => mret tt
  | b :: l' => sendProtocolRejct b;; run_spawned l'
  end.

Definition dispatch (b : bytes) : M unit :=
  l ← relay b; run_spawned l.

(** *** The send loop *)

(** [v := <-ch]: a nil channel and an empty open channel block; an empty
    closed channel yields the zero value, the nil slice. *)
Definition chan_recv (ch : chanref) : M bytes :=
  fun s =>
    match ch with
    | None => Blocks s
    | Some r =>
      match chans s !! r with
      | None => Blocks s
      | Some c =>
        match buf c with
        | v :: rest =>
          Done v (set_chans
                    (<[r := {| buf := rest; closed := closed c; cap := cap c |}]>
                       (chans s)) s)
        | [] => if closed c then Done [] s else Blocks s
        end
      end
    end.

(** The [net.PacketConn] the multiplexer runs on, as far as the send loop
    uses it: [WriteTo(b, nil)] on a connection in state [C], with its
    results [(n, err)]. *)
Class PacketConn (C E : Type) :=
  conn_WriteTo : bytes -> C -> (Z * option E) * C.

(** [PPP.send], for a context that is cancelled after [rounds] frames:
    each round takes a frame from the send channel and writes it; a write
    error is logged and the loop goes on.  The result is the list of
    errors logged. *)
Fixpoint send {C E : Type} `{PacketConn C E} (rounds : nat) (s : PPP) (c : C)
  : outcome (PPP * C) (list E) :=
  match rounds with
  | O => Done [] (s, c)
  | S n =>
    match chan_recv (sendChan s) s with
    | Done b s' =>
      let '((_, err), c') := conn_WriteTo b c in
      match send n s' c' with
      | Done log st => Done (option_list err ++ log) st
      | Panicked st => Panicked st
      | Blocks st => Blocks st
      end
    | Panicked s' => Panicked (s', c)
    | Blocks s' => Blocks (s', c)
    end
  end.

(** What the rounds of [send] do to the connection for the frames [fs]:
    the errors logged and the connection after the writes. *)
Fixpoint WriteTo_all {C E : Type} `{PacketConn C E} (fs : list bytes) (c : C)
  : list E * C :=
  match fs with
  | [] => ([], c)
  | f :: fs' =>
    let '((_, err), c') := conn_WriteTo f c in
    let '(log, c'') := WriteTo_all fs' c' in
    (option_list err ++ log, c'')
  end.

(** *** Runs of the multiplexer *)

(** The state an outcome ends in. *)
Definition final {S A : Type} (o : outcome S A) : S :=
  match o with
  | Done _ s | Panicked s | Blocks s => s
  end.

(** [relay] on one frame after the other. *)
Fixpoint relay_each (bs : list bytes) : M unit :=
  match bs with
  | [] => mret tt
  | b :: bs' => relay b;; relay_each bs'
  end.

(** The shape the registry has from [NewPPP] on: every registered
    channel has been made, is open and is registered for one number
    only, and the send channel is an open channel that is not
    registered. *)
Definition registry_ok (s : PPP) : Prop :=
  (forall p r, relayChanList s !! p = Some r ->
     (r < nextChan s)%nat /\
     exists c, chans s !! r = Some c /\ closed c = false) /\
  (forall p1 p2 r, relayChanList s !! p1 = Some r ->
     relayChanList s !! p2 = Some r -> p1 = p2) /\
  (exists q c, sendChan s = Some q /\ (q < nextChan s)%nat /\
     chans s !! q = Some c /\ closed c = false /\
     forall p, relayChanList s !! p ≠ Some q).

End Relay.

End lcp.

(** ** Package pppoe: the discovery engine *)

Module pppoe.

(** [net.HardwareAddr], a byte slice; [nil] is the empty list. *)
Abbreviation HardwareAddr := bytes.

(** A tag as the engine sees it through the [Tag] interface: its type and
    its value ([TagString] wraps a [TagByteSlice] of these two fields). *)
Record Tag := { TagType : Z; Value : bytes }.

(** [Tag.Type()] *)
Definition Type_ (t : Tag) : Z := TagType t.

(** [type Packet struct], the discovery packet. *)
Record Packet := {
  Code : Z;              (* uint8 *)
  SessionID : Z;         (* uint16 *)
  Tags : list Tag;
  Payload : bytes
}.

Inductive error : Type :=
| ErrCodec                     (* an error of Packet.Serialize or Packet.Parse *)
| ErrTimeOut                   (* etherconn.ErrTimeOut *)
| ErrIO                        (* any other error of the EtherConn *)
| ErrRecvResponse (e : error)  (* "failed to recv response, %w" *)
| ErrNoResponse (code : Z)     (* "faile to recv expect response %v" *)
| ErrRejected (pads : Packet)  (* "AC rejected,\n %v" *)
| ErrNotOpen                   (* "pppoe is not open" *)
| ErrSerializePkt (e : error)  (* "failed to serialize pppoe pkt,%w" *)
| ErrSendPkt (e : error).      (* "failed to send pppoe pkt,%w" *)

(** [errors.Is(err, etherconn.ErrTimeOut)] *)
Fixpoint is_timeout (e : error) : bool :=
  match e with
  | ErrTimeOut => true
  | ErrRecvResponse e' | ErrSerializePkt e' | ErrSendPkt e' => is_timeout e'
  | _ => false
  end.

(** The declarations of the package that the engine uses and that live in
    other files: packet codes, tag types, the packet codec with its tag
    lookup, and the broadcast address of package etherconn. *)
Class Decls := {
  CodePADI : Z;
  CodePADO : Z;
  CodePADR : Z;
  CodePADS : Z;
  CodePADT : Z;
  CodeSession : Z;
  TagTypeServiceName : Z;
  TagTypeACCookie : Z;
  TagTypeRelaySessionID : Z;
  Packet_Serialize : Packet -> result error bytes;
  Packet_Parse : bytes -> result error Packet;
  GetTag : Packet -> Z -> list Tag;
  BroadCastMAC : HardwareAddr
}.

(** *** The Ethernet connection

    [etherconn.EtherConn] is the environment of the engine.  What the
    n-th read returns and whether the n-th write fails is given by the
    oracles [rx] and [tx]; the calls made are recorded in [trace]. *)

(** The three results of [ReadPkt]: buffer, sender ([nil] is [None]) and
    error. *)
Record ReadResult := {
  rr_buf : bytes;
  rr_l2ep : option HardwareAddr;
  rr_err : option error
}.

Inductive Event : Type :=
| EvWritePktTo (p : bytes) (ethertype : Z) (dst : HardwareAddr)
| EvSetReadDeadline (after : Z)   (* the deadline, as a delay from now *)
| EvReadPkt.

Record EtherConn := {
  rx : nat -> ReadResult;
  tx : nat -> option error;
  nrx : nat;
  ntx : nat;
  trace : list Event
}.

Definition WritePktTo (p : bytes) (ethertype : Z) (dst : HardwareAddr)
  (c : EtherConn) : option error * EtherConn :=
  (tx c (ntx c),
   {| rx := rx c; tx := tx c; nrx := nrx c; ntx := S (ntx c);
      trace := trace c ++ [EvWritePktTo p ethertype dst] |}).

(** [SetReadDeadline(time.Now().Add(d))] *)
Definition SetReadDeadline (d : Z) (c : EtherConn) : EtherConn :=
  {| rx := rx c; tx := tx c; nrx := nrx c; ntx := ntx c;
     trace := trace c ++ [EvSetReadDeadline d] |}.

Definition ReadPkt (c : EtherConn) : ReadResult * EtherConn :=
  (rx c (nrx c),
   {| rx := rx c; tx := tx c; nrx := S (nrx c); ntx := ntx c;
      trace := trace c ++ [EvReadPkt] |}).

(** *** The engine *)

Inductive PPPoEState : Type :=
| pppoeStateInitial
| pppoeStateDialing
| pppoeStateOpen
| pppoeStateClosed.

#[export] Instance PPPoEState_eq_dec : EqDecision PPPoEState.
Proof. solve_decision. Defined.

(** [type PPPoE struct].  [wg], [recvChan] and [logger] take no part in
    the calls modelled; [cancelFunc] records whether it has been set;
    [stores] is the list of values stored to [*state] so far, oldest
    first. *)
Record PPPoE := {
  serviceName : string;
  sessionID : Z;         (* uint16 *)
  tags : list Tag;
  acMAC : HardwareAddr;
  conn : EtherConn;
  cancelFunc : bool;
  debug : bool;
  state : PPPoEState;
  timeout : Z;           (* time.Duration, nanoseconds *)
  retry : Z;             (* int *)
  stores : list PPPoEState
}.

Definition Second : Z := 1000000000.
Definition DefaultTimeout : Z := 3 * Second.
Definition DefaultRetry : Z := 3.

Definition EtherTypePPPoESession : Z := 0x8864.
Definition EtherTypePPPoEDiscovery : Z := 0x8863.

Definition set_sessionID (v : Z) (p : PPPoE) : PPPoE :=
  {| serviceName := serviceName p; sessionID := v; tags := tags p;
     acMAC := acMAC p; conn := conn p; cancelFunc := cancelFunc p;
     debug := debug p; state := state p; timeout := timeout p;
     retry := retry p; stores := stores p |}.

Definition set_tags (v : list Tag) (p : PPPoE) : PPPoE :=
  {| serviceName := serviceName p; sessionID := sessionID p; tags := v;
     acMAC := acMAC p; conn := conn p; cancelFunc := cancelFunc p;
     debug := debug p; state := state p; timeout := timeout p;
     retry := retry p; stores := stores p |}.

Definition set_acMAC (v : HardwareAddr) (p : PPPoE) : PPPoE :=
  {| serviceName := serviceName p; sessionID := sessionID p; tags := tags p;
     acMAC := v; conn := conn p; cancelFunc := cancelFunc p;
     debug := debug p; state := state p; timeout := timeout p;
     retry := retry p; stores := stores p |}.

Definition set_conn (v : EtherConn) (p : PPPoE) : PPPoE :=
  {| serviceName := serviceName p; sessionID := sessionID p; tags := tags p;
     acMAC := acMAC p; conn := v; cancelFunc := cancelFunc p;
     debug := debug p; state := state p; timeout := timeout p;
     retry := retry p; stores := stores p |}.

Definition set_cancelFunc (v : bool) (p : PPPoE) : PPPoE :=
  {| serviceName := serviceName p; sessionID := sessionID p; tags := tags p;
     acMAC := acMAC p; conn := conn p; cancelFunc := v;
     debug := debug p; state := state p; timeout := timeout p;
     retry := retry p; stores := stores p |}.

Definition set_debug (v : bool) (p : PPPoE) : PPPoE :=
  {| serviceName := serviceName p; sessionID := sessionID p; tags := tags p;
     acMAC := acMAC p; conn := conn p; cancelFunc := cancelFunc p;
     debug := v; state := state p; timeout := timeout p;
     retry := retry p; stores := stores p |}.

(** [atomic.StoreUint32(pppoe.state, v)] *)
Definition StoreState (v : PPPoEState) (p : PPPoE) : PPPoE :=
  {| serviceName := serviceName p; sessionID := sessionID p; tags := tags p;
     acMAC := acMAC p; conn := conn p; cancelFunc := cancelFunc p;
     debug := debug p; state := v; timeout := timeout p;
     retry := retry p; stores := stores p ++ [v] |}.

(** [type Modifier func(pppoe *PPPoE)] *)
Definition Modifier : Type := PPPoE -> PPPoE.

Definition WithDebug (d : bool) : Modifier := set_debug d.

(** [WithTags]; the argument is a slice, [None] being [nil]. *)
Definition WithTags (t : option (list Tag)) : Modifier :=
  fun pppoe =>
    match t with
    | None => pppoe
    | Some l => set_tags l pppoe
    end.

Section Engine.
Context `{D : Decls}.

(** The service-name tag built from [pppoe.serviceName]. *)
Definition serviceNameTag (name : string) : Tag :=
  {| TagType := TagTypeServiceName; Value := list_byte_of_string name |}.

(** [NewPPPoE]; [r.serviceName] is still the empty string when the
    default tag is built. *)
Definition NewPPPoE (c : EtherConn) (options : list Modifier) : PPPoE :=
  let r :=
    {| serviceName := EmptyString; sessionID := 0;
       tags := [serviceNameTag EmptyString];
       acMAC := []; conn := c; cancelFunc := false; debug := false;
       state := pppoeStateInitial;
       timeout := DefaultTimeout; retry := DefaultRetry;
       stores := [] |} in
  let r := foldl (fun r option => option r) r options in
  {| serviceName := serviceName r; sessionID := sessionID r; tags := tags r;
     acMAC := acMAC r; conn := c; cancelFunc := cancelFunc r;
     debug := debug r; state := pppoeStateInitial; timeout := timeout r;
     retry := retry r; stores := stores r |}.

Definition buildPADT (pppoe : PPPoE) : Packet :=
  {| Code := CodePADT; SessionID := sessionID pppoe; Tags := []; Payload := [] |}.

Definition buildPADI (pppoe : PPPoE) : Packet :=
  {| Code := CodePADI; SessionID := 0; Tags := tags pppoe; Payload := [] |}.

Definition buildPADRWithPADO (pppoe : PPPoE) (pado : Packet) : Packet :=
  let t0 := [serviceNameTag (serviceName pppoe)] in
  let t1 := t0 ++ filter (fun t => Type_ t ≠ TagTypeServiceName) (tags pppoe) in
  let t2 := t1 ++ GetTag pado TagTypeACCookie in
  let t3 := t2 ++ GetTag pado TagTypeRelaySessionID in
  {| Code := CodePADR; SessionID := 0; Tags := t3; Payload := [] |}.

(** [PPPoE.Close] *)
Definition Close (pppoe : PPPoE) : outcome PPPoE (option error) :=
  if decide (state pppoe = pppoeStateOpen) then
    let pkt := buildPADT pppoe in
    match Packet_Serialize pkt with
    | Err e => Done (Some e) pppoe
    | Ok pktbytes =>
      let '(_, c) :=
        WritePktTo pktbytes EtherTypePPPoEDiscovery (acMAC pppoe) (conn pppoe) in
      Done None (set_conn c pppoe)
    end
  else Done None pppoe.

(** [PPPoE.WriteTo]; the address argument is ignored by the code and is
    left out.  The result is the pair [(n, err)]. *)
Definition WriteTo (p : bytes) (pppoe : PPPoE)
  : outcome PPPoE (Z * option error) :=
  if decide (state pppoe ≠ pppoeStateOpen) then Done (0, Some ErrNotOpen) pppoe
  else
    let pkt :=
      {| Code := CodeSession; SessionID := sessionID pppoe;
         Tags := []; Payload := p |} in
    match Packet_Serialize pkt with
    | Err e => Done (0, Some (ErrSerializePkt e)) pppoe
    | Ok pktbytes =>
      let '(err, c) :=
        WritePktTo pktbytes EtherTypePPPoESession (acMAC pppoe) (conn pppoe) in
      match err with
      | Some e => Done (0, Some (ErrSendPkt e)) (set_conn c pppoe)
      | None => Done (Z.of_nat (length p), None) (set_conn c pppoe)
      end
    end.

(** The test on the error of [ReadPkt] in [getResponse]: a timeout is not
    returned, the loop goes on to parse whatever buffer came with it. *)
Definition hard_error (err : option error) : option error :=
  match err with
  | Some e => if is_timeout e then None else Some e
  | None => None
  end.

(** The [for] loop of [getResponse], with [n] iterations left. *)
Fixpoint getResponse_loop (n : nat) (pktbytes : bytes) (code : Z)
  (dst : HardwareAddr) (tmo : Z) (c : EtherConn)
  : outcome EtherConn (result error (Packet * HardwareAddr)) :=
  match n with
  | O => Done (Err (ErrNoResponse code)) c
  | S n' =>
    let '(werr, c) := WritePktTo pktbytes EtherTypePPPoEDiscovery dst c in
    match werr with
    | Some e => Done (Err e) c
    | None =>
      let c := SetReadDeadline tmo c in
      let '(rr, c) := ReadPkt c in
      match hard_error (rr_err rr) with
      | Some e => Done (Err (ErrRecvResponse e)) c
      | None =>
        match Packet_Parse (rr_buf rr) with
        | Err _ => getResponse_loop n' pktbytes code dst tmo c
        | Ok resp =>
          if decide (Code resp = code) then
            match rr_l2ep rr with
            | Some hw => Done (Ok (resp, hw)) c
            | None => Panicked c
            end
          else getResponse_loop n' pktbytes code dst tmo c
        end
      end
    end
  end.

(** [PPPoE.getResponse] *)
Definition getResponse (pppoe : PPPoE) (req : Packet) (code : Z)
  (dst : HardwareAddr)
  : outcome PPPoE (result error (Packet * HardwareAddr)) :=
  match Packet_Serialize req with
  | Err e => Done (Err e) pppoe
  | Ok pktbytes =>
    match getResponse_loop (Z.to_nat (retry pppoe)) pktbytes code dst
            (timeout pppoe) (conn pppoe) with
    | Done r c => Done r (set_conn c pppoe)
    | Panicked c => Panicked (set_conn c pppoe)
    | Blocks c => Blocks (set_conn c pppoe)
    end
  end.

(** The body of [PPPoE.Dial] after the first store and without the
    deferred function. *)
Definition Dial_body (pppoe : PPPoE) : outcome PPPoE (option error) :=
  let padi := buildPADI pppoe in
  match getResponse pppoe padi CodePADO BroadCastMAC with
  | Panicked p => Panicked p
  | Blocks p => Blocks p
  | Done (Err e) p => Done (Some e) (set_acMAC [] p)
  | Done (Ok (pado, hw)) p =>
    let p := set_acMAC hw p in
    let padr := buildPADRWithPADO p pado in
    match getResponse p padr CodePADS (acMAC p) with
    | Panicked p => Panicked p
    | Blocks p => Blocks p
    | Done (Err e) p => Done (Some e) p
    | Done (Ok (pads, _)) p =>
      if decide (SessionID pads = 0) then Done (Some (ErrRejected pads)) p
      else
        let p := set_sessionID (SessionID pads) p in
        let p := StoreState pppoeStateOpen p in
        Done None (set_cancelFunc true p)
    end
  end.

(** The function deferred by [Dial]. *)
Definition Dial_deferred (pppoe : PPPoE) : PPPoE :=
  if decide (state pppoe ≠ pppoeStateOpen)
  then StoreState pppoeStateClosed pppoe
  else pppoe.

(** [PPPoE.Dial]; the context argument is only handed to
    [context.WithCancel]. *)
Definition Dial (pppoe : PPPoE) : outcome PPPoE (option error) :=
  match Dial_body (StoreState pppoeStateDialing pppoe) with
  | Done r p => Done r (Dial_deferred p)
  | Panicked p => Panicked (Dial_deferred p)
  | Blocks p => Blocks p
  end.

(** *** Runs of the engine against the connection *)

(** The three calls on the connection made by one iteration of the loop
    of [getResponse]. *)
Definition attempt (pktbytes : bytes) (dst : HardwareAddr) (tmo : Z)
  : list Event :=
  [EvWritePktTo pktbytes EtherTypePPPoEDiscovery dst;
   EvSetReadDeadline tmo; EvReadPkt].

(** A read result that makes the loop of [getResponse] go round again: no
    error but a timeout, and a buffer that does not parse or parses to a
    packet of another code. *)
Definition no_match (code : Z) (rr : ReadResult) : bool :=
  match hard_error (rr_err rr) with
  | Some _ => false
  | None =>
    match Packet_Parse (rr_buf rr) with
    | Ok resp => bool_decide (Code resp ≠ code)
    | Err _ => true
    end
  end.

(** The next [n] writes on [c] succeed and none of the next [n] reads
    brings a packet of code [code] or a hard error. *)
Definition quiet (c : EtherConn) (n : nat) (code : Z) : bool :=
  forallb
    (fun i => bool_decide (tx c (ntx c + i)%nat = None)
              && no_match code (rx c (nrx c + i)%nat))
    (seq 0 n).

(** The connection after [n] iterations of the loop of [getResponse]. *)
Definition after_attempts (n : nat) (pktbytes : bytes) (dst : HardwareAddr)
  (tmo : Z) (c : EtherConn) : EtherConn :=
  {| rx := rx c; tx := tx c; nrx := nrx c + n; ntx := ntx c + n;
     trace := trace c ++ concat (replicate n (attempt pktbytes dst tmo)) |}.

(** The packet [WriteTo] wraps a payload in. *)
Definition session_pkt (sid : Z) (p : bytes) : Packet :=
  {| Code := CodeSession; SessionID := sid; Tags := []; Payload := p |}.

(** Calls of [WriteTo] one after the other, with their results. *)
Fixpoint WriteTo_each (ps : list bytes) (pppoe : PPPoE)
  : outcome PPPoE (list (Z * option error)) :=
  match ps with
  | [] => Done [] pppoe
  | p :: ps' =>
    match WriteTo p pppoe with
    | Done r s =>
      match WriteTo_each ps' s with
      | Done rs s' => Done (r :: rs) s'
      | Panicked s' => Panicked s'
      | Blocks s' => Blocks s'
      end
    | Panicked s => Panicked s
    | Blocks s => Blocks s
    end
  end.

(** The number of tags of type [t] in a tag list. *)
Definition count_type (t : Z) (l : list Tag) : nat :=
  length (filter (fun tag => Type_ tag = t) l).

(** The state an outcome ends in. *)
Definition final {A} (o : outcome PPPoE A) : PPPoE :=
  match o with
  | Done _ s | Panicked s | Blocks s => s
  end.

(** *** ReadFrom *)

(** Modelled from the spec: [EtherConn.ReadPktFrom(buf)] is of package
    etherconn, which is not covered here; it receives the next raw frame
    with its sender's address, and like [net.PacketConn.ReadFrom] it
    copies the frame into [buf] and returns the number of bytes copied.
    The second result here is the content of [buf] after the call. *)
Definition ReadPktFrom (buf : bytes) (c : EtherConn)
  : (Z * bytes * option HardwareAddr * option error) * EtherConn :=
  let rr := rx c (nrx c) in
  let data := take (length buf) (rr_buf rr) in
  ((Z.of_nat (length data), data ++ drop (length data) buf,
    rr_l2ep rr, rr_err rr),
   {| rx := rx c; tx := tx c; nrx := S (nrx c); ntx := ntx c;
      trace := trace c ++ [EvReadPkt] |}).

(** [etherconn.L2Endpoint], with the field the engine sets, and
    [type Endpoint struct]. *)
Record L2Endpoint := { HwAddr : HardwareAddr }.
Record Endpoint := { L2EP : L2Endpoint; EpSessionID : Z }.

Definition newPPPoEEndpoint (l2ep : L2Endpoint) (sid : Z) : Endpoint :=
  {| L2EP := l2ep; EpSessionID := sid |}.

Definition newRemotePPPoEP (pppoe : PPPoE) (mac : HardwareAddr) : Endpoint :=
  newPPPoEEndpoint {| HwAddr := mac |} (sessionID pppoe).

(** The errors of [ReadFrom]. *)
Inductive read_error : Type :=
| ErrReadNotOpen               (* "pppoe is not open" *)
| ErrFailedRecv (e : error).   (* "failed to recv, %w" *)

(** The [for] loop of [ReadFrom] and its return, the loop being cut
    after [fuel] rounds ([None]).  Beside the outcome with the results
    [(n, addr, err)] stands the content of the caller's buffer.  Two
    hardware addresses have the same [String()] exactly when they are the
    same bytes; the buffer's capacity is taken to be its length. *)
Fixpoint ReadFrom_loop (fuel : nat) (buf : bytes) (pppoe : PPPoE)
  : option (outcome PPPoE (Z * option Endpoint * option read_error) * bytes) :=
  match fuel with
  | O => None
  | S fuel' =>
    let '((n, buf, l2ep, err), c) := ReadPktFrom buf (conn pppoe) in
    let pppoe := set_conn c pppoe in
    match err with
    | Some e => Some (Done (0, None, Some (ErrFailedRecv e)) pppoe, buf)
    | None =>
      if decide (n < 6) then ReadFrom_loop fuel' buf pppoe
      else
        match l2ep with
        | None => Some (Panicked pppoe, buf)
        | Some hw =>
          if decide (hw ≠ acMAC pppoe) then ReadFrom_loop fuel' buf pppoe
          else
            match buf !! 1%nat with
            | None => Some (Panicked pppoe, buf)
            | Some b1 =>
              if decide (Z_of_byte b1 ≠ CodeSession)
              then ReadFrom_loop fuel' buf pppoe
              else if decide (length buf < 4)%nat
              then Some (Panicked pppoe, buf)
              else if decide (binary.Uint16 (take 2 (drop 2 buf))
                              ≠ sessionID pppoe)
              then ReadFrom_loop fuel' buf pppoe
              else if decide (length buf < 6)%nat
              then Some (Panicked pppoe, buf)
              else
                Some (Done (n - 6, Some (newRemotePPPoEP pppoe hw), None) pppoe,
                      drop 6 buf ++ drop (length buf - 6) buf)
            end
        end
    end
  end.

(** [PPPoE.ReadFrom] *)
Definition ReadFrom (fuel : nat) (buf : bytes) (pppoe : PPPoE)
  : option (outcome PPPoE (Z * option Endpoint * option read_error) * bytes) :=
  if decide (state pppoe ≠ pppoeStateOpen)
  then Some (Done (0, None, Some ErrReadNotOpen) pppoe, buf)
  else ReadFrom_loop fuel buf pppoe.

(** What [ReadFrom] makes of the frame that a read has put into a buffer
    of length [len]: it takes it, or it goes on to the next read. *)
Definition taken (pppoe : PPPoE) (len : nat) (rr : ReadResult) : bool :=
  let data := take len (rr_buf rr) in
  bool_decide (rr_err rr = None)
  && bool_decide (6 <= length data)%nat
  && bool_decide (rr_l2ep rr = Some (acMAC pppoe))
  && bool_decide (Z_of_byte <$> data !! 1%nat = Some CodeSession)
  && bool_decide (binary.Uint16 (take 2 (drop 2 data)) = sessionID pppoe).

Definition skipped (pppoe : PPPoE) (len : nat) (rr : ReadResult) : bool :=
  let data := take len (rr_buf rr) in
  bool_decide (rr_err rr = None)
  && (bool_decide (length data < 6)%nat
      || match rr_l2ep rr with
         | None => false
         | Some hw =>
           bool_decide (hw ≠ acMAC pppoe)
           || bool_decide (Z_of_byte <$> data !! 1%nat ≠ Some CodeSession)
           || bool_decide (binary.Uint16 (take 2 (drop 2 data))
                           ≠ sessionID pppoe)
         end).

(** The connection after [n] reads. *)
Definition after_reads (n : nat) (c : EtherConn) : EtherConn :=
  {| rx := rx c; tx := tx c; nrx := nrx c + n; ntx := ntx c;
     trace := trace c ++ replicate n EvReadPkt |}.

(** On [c] the exchange for [code] is answered at the attempt of index
    [k] by [resp] from [hw]: the attempts before bring nothing, the write
    of attempt [k] succeeds and its read brings [resp]. *)
Definition answers (c : EtherConn) (k : nat) (code : Z) (resp : Packet)
  (hw : HardwareAddr) : Prop :=
  quiet c k code = true /\
  tx c (ntx c + k)%nat = None /\
  hard_error (rr_err (rx c (nrx c + k)%nat)) = None /\
  Packet_Parse (rr_buf (rx c (nrx c + k)%nat)) = Ok resp /\
  Code resp = code /\
  rr_l2ep (rx c (nrx c + k)%nat) = Some hw.

End Engine.

End pppoe.

(** ** Package datapath: the TUN interface *)

Module datapath.
Import lcp.

Definition _minimumFrameSize : nat := 20.
Definition _defaultMaxFrameSize : nat := 1500.

Section TUN.
Context `{D : lcp.Decls}.

(** One round of the loop of [TUNInterface.send], from the packet [buf]
    that the read of the TUN device has returned, the context not being
    cancelled: the packet is dropped if it is too small or of an unknown
    IP version, else it is wrapped in a PPP frame and put on [sendChan],
    the channel that [Register] has returned. *)
Definition send_round (sendChan : lcp.chanref) (buf : bytes) : lcp.M unit :=
  if decide (length buf < _minimumFrameSize)%nat then lcp.ret tt
  else
    match buf with
    | [] => fun s => Panicked s
    | b0 :: _ =>
      let version := Z.shiftr (Z_of_byte b0) 4 in
      if decide (version = 4) then
        match lcp.PPPPacket_Serialize
                (lcp.NewPPPPkt (lcp.NewStaticSerializer buf) lcp.ProtoIPv4) with
        | Ok pkt => lcp.chan_send sendChan pkt
        | Err _ => lcp.ret tt
        end
      else if decide (version = 6) then
        match lcp.PPPPacket_Serialize
                (lcp.NewPPPPkt (lcp.NewStaticSerializer buf) lcp.ProtoIPv6) with
        | Ok pkt => lcp.chan_send sendChan pkt
        | Err _ => lcp.ret tt
        end
      else lcp.ret tt
    end.

End TUN.

End datapath.

(** ** Instances of the outside declarations, for the examples *)

(** Modelled from the spec: the protocol numbers, the Protocol-Reject
    code, and the constructor and the serializer of LCP packets are
    declared in other files of the package.  The glossary gives LCP as
    0xC021; the other numbers are the assigned PPP numbers, a new packet
    is empty, and a control packet is laid out as code, identifier,
    two-byte length and data. *)
Definition lcp_decls : lcp.Decls :=
  {| lcp.ProtoLCP := 0xC021;
     lcp.ProtoPAP := 0xC023;
     lcp.ProtoCHAP := 0xC223;
     lcp.ProtoIPCP := 0x8021;
     lcp.ProtoIPv6CP := 0x8057;
     lcp.ProtoIPv4 := 0x0021;
     lcp.ProtoIPv6 := 0x0057;
     lcp.CodeProtocolReject := 8;
     lcp.NewPkt := fun proto =>
       {| lcp.PktProto := proto; lcp.Code := 0; lcp.ID := 0;
          lcp.PktPayload := [] |};
     lcp.Pkt_Serialize := fun pkt =>
       Ok ([byte_of_Z (lcp.Code pkt); byte_of_Z (lcp.ID pkt)]
             ++ binary.PutUint16 (Z.of_nat (length (lcp.PktPayload pkt)) + 4)
             ++ lcp.PktPayload pkt) |}.

(** Modelled from the spec: the discovery packet codec is declared in
    another file of the package.  A tag is Type(2B) + Length(2B) + Value,
    network order, tags in their order and then the payload. *)
Definition serialize_tag (t : pppoe.Tag) : bytes :=
  binary.PutUint16 (pppoe.TagType t)
    ++ binary.PutUint16 (Z.of_nat (length (pppoe.Value t)))
    ++ pppoe.Value t.

(** Modelled from the spec: serialization of a discovery packet, which
    is declared in another file of the package: the header with Code,
    SessionID and the length of what follows, after the version and type
    octet that [ReadFrom] skips (it reads the code at offset 1, the session
    id at offsets 2 and 3, and strips six bytes).  It fails only if a tag's
    length field cannot represent its value. *)
Definition sample_Serialize (pkt : pppoe.Packet) : result pppoe.error bytes :=
  if forallb (fun t => Z.of_nat (length (pppoe.Value t)) <? 65536) (pppoe.Tags pkt)
  then
    let body := concat (map serialize_tag (pppoe.Tags pkt)) ++ pppoe.Payload pkt in
    Ok ([x11; byte_of_Z (pppoe.Code pkt)]
          ++ binary.PutUint16 (pppoe.SessionID pkt)
          ++ binary.PutUint16 (Z.of_nat (length body))
          ++ body)
  else Err pppoe.ErrCodec.

(** Modelled from the spec: tags are parsed greedily until the input is
    exhausted; a truncated trailing tag is an error. *)
Fixpoint parse_tags (fuel : nat) (b : bytes) : result pppoe.error (list pppoe.Tag) :=
  match fuel with
  | O => match b with [] => Ok [] | _ => Err pppoe.ErrCodec end
  | S fuel' =>
    match b with
    | [] => Ok []
    | _ =>
      if decide (length b < 4)%nat then Err pppoe.ErrCodec
      else
        let t := binary.Uint16 (take 2 b) in
        let l := Z.to_nat (binary.Uint16 (take 2 (drop 2 b))) in
        let rest := drop 4 b in
        if decide (length rest < l)%nat then Err pppoe.ErrCodec
        else
          match parse_tags fuel' (drop l rest) with
          | Ok ts => Ok ({| pppoe.TagType := t; pppoe.Value := take l rest |} :: ts)
          | Err e => Err e
          end
    end
  end.

(** Modelled from the spec: parsing of a discovery packet, which is
    declared in another file of the package; it fails on an input shorter
    than the fixed header.  A session packet carries a payload, any other
    packet carries tags. *)
Definition sample_Parse (b : bytes) : result pppoe.error pppoe.Packet :=
  if decide (length b < 6)%nat then Err pppoe.ErrCodec
  else
    let code := binary.Uint16 (x00 :: take 1 (drop 1 b)) in
    let sid := binary.Uint16 (take 2 (drop 2 b)) in
    let rest := drop 6 b in
    if decide (code = 0) then
      Ok {| pppoe.Code := code; pppoe.SessionID := sid;
            pppoe.Tags := []; pppoe.Payload := rest |}
    else
      match parse_tags (length rest) rest with
      | Ok ts => Ok {| pppoe.Code := code; pppoe.SessionID := sid;
                       pppoe.Tags := ts; pppoe.Payload := [] |}
      | Err e => Err e
      end.

(** Modelled from the spec: the packet codes and tag types of RFC 2516 and
    the Ethernet broadcast address, all declared in other files; the tag
    lookup returns the tags of the given type, in their order, verbatim. *)
Definition pppoe_decls : pppoe.Decls :=
  {| pppoe.CodePADI := 0x09;
     pppoe.CodePADO := 0x07;
     pppoe.CodePADR := 0x19;
     pppoe.CodePADS := 0x65;
     pppoe.CodePADT := 0xa7;
     pppoe.CodeSession := 0x00;
     pppoe.TagTypeServiceName := 0x0101;
     pppoe.TagTypeACCookie := 0x0104;
     pppoe.TagTypeRelaySessionID := 0x0110;
     pppoe.Packet_Serialize := sample_Serialize;
     pppoe.Packet_Parse := sample_Parse;
     pppoe.GetTag := fun pkt t =>
       filter (fun tag => pppoe.Type_ tag = t) (pppoe.Tags pkt);
     pppoe.BroadCastMAC := [xff; xff; xff; xff; xff; xff] |}.

(** An access concentrator's address and scripted connections. *)
Definition ac_mac : pppoe.HardwareAddr := [x02; x00; x00; x00; x00; x01].

Definition rx_timeout : pppoe.ReadResult :=
  {| pppoe.rr_buf := []; pppoe.rr_l2ep := None;
     pppoe.rr_err := Some pppoe.ErrTimeOut |}.

Definition rx_packet (pkt : pppoe.Packet) (src : pppoe.HardwareAddr)
  : pppoe.ReadResult :=
  {| pppoe.rr_buf :=
       match sample_Serialize pkt with Ok b => b | Err _ => [] end;
     pppoe.rr_l2ep := Some src;
     pppoe.rr_err := None |}.

(** A connection whose reads return the results listed, then time out,
    and whose writes fail exactly at the indices listed. *)
Definition scripted (reads : list pppoe.ReadResult) (bad_writes : list nat)
  : pppoe.EtherConn :=
  {| pppoe.rx := fun n => nth n reads rx_timeout;
     pppoe.tx := fun n =>
       if bool_decide (n ∈ bad_writes) then Some pppoe.ErrIO else None;
     pppoe.nrx := 0; pppoe.ntx := 0; pppoe.trace := [] |}.

Definition pado_pkt : pppoe.Packet :=
  {| pppoe.Code := 0x07; pppoe.SessionID := 0;
     pppoe.Tags := [ {| pppoe.TagType := 0x0101; pppoe.Value := [] |};
                     {| pppoe.TagType := 0x0104; pppoe.Value := [xaa; xbb] |} ];
     pppoe.Payload := [] |}.

Definition pads_pkt (sid : Z) : pppoe.Packet :=
  {| pppoe.Code := 0x65; pppoe.SessionID := sid;
     pppoe.Tags := [ {| pppoe.TagType := 0x0101; pppoe.Value := [] |} ];
     pppoe.Payload := [] |}.

(** A fresh multiplexer on which protocol 0x21 has been registered. *)
Definition registered_once : lcp.PPP :=
  match lcp.Register 0x21 lcp.NewPPP with
  | Done _ s | Panicked s | Blocks s => s
  end.

(** The engine that [Dial] leaves behind on a scripted connection. *)
Definition dialed (reads : list pppoe.ReadResult) (bad_writes : list nat)
  : pppoe.PPPoE :=
  pppoe.final
    (pppoe.Dial (D := pppoe_decls)
       (pppoe.NewPPPoE (D := pppoe_decls) (scripted reads bad_writes) [])).

(** A session opened with id 0x1234, on a link whose writes succeed and
    on one whose third write, the first after the handshake, fails. *)
Definition open_engine : pppoe.PPPoE :=
  dialed [rx_packet pado_pkt ac_mac; rx_packet (pads_pkt 0x1234) ac_mac] [].

Definition open_engine_bad_link : pppoe.PPPoE :=
  dialed [rx_packet pado_pkt ac_mac; rx_packet (pads_pkt 0x1234) ac_mac]
    [2%nat].

(** The multiplexer with protocol 0x21 registered and its channel full,
    with the unassigned number 0xff registered, and with frames queued on
    the send channel. *)
Definition registered_full : lcp.PPP :=
  lcp.set_chans
    (<[1%nat := {| lcp.buf := replicate 128 [x00]; lcp.closed := false;
                   lcp.cap := 128 |}]> (lcp.chans registered_once))
    registered_once.

Definition registered_unknown : lcp.PPP :=
  match lcp.Register 0xff lcp.NewPPP with
  | Done _ s | Panicked s | Blocks s => s
  end.

Definition queued (fs : list bytes) : lcp.PPP :=
  lcp.set_chans
    {[ 0%nat := {| lcp.buf := fs; lcp.closed := false; lcp.cap := 128 |} ]}
    lcp.NewPPP.

(** A read that fails with an error other than a timeout, and the read of
    a raw frame. *)
Definition rx_error : pppoe.ReadResult :=
  {| pppoe.rr_buf := []; pppoe.rr_l2ep := None;
     pppoe.rr_err := Some pppoe.ErrIO |}.

Definition rx_frame (frame : bytes) (src : pppoe.HardwareAddr)
  : pppoe.ReadResult :=
  {| pppoe.rr_buf := frame; pppoe.rr_l2ep := Some src; pppoe.rr_err := None |}.

(** The session of id 0x1234 with four frames waiting: a short one, one
    from another station, one of another session, and one of the session
    with the payload C0 21. *)
Definition other_mac : pppoe.HardwareAddr := [x02; x00; x00; x00; x00; x02].

Definition reading_engine : pppoe.PPPoE :=
  dialed [rx_packet pado_pkt ac_mac; rx_packet (pads_pkt 0x1234) ac_mac;
          rx_frame [x11; x00; x12] ac_mac;
          rx_frame [x11; x00; x12; x34; x00; x02; xc0; x21] other_mac;
          rx_frame [x11; x00; x99; x99; x00; x02; xc0; x21] ac_mac;
          rx_frame [x11; x00; x12; x34; x00; x02; xc0; x21] ac_mac] [].

(** An engine that has not dialed, on a silent link. *)
Definition idle_engine : pppoe.PPPoE :=
  pppoe.NewPPPoE (D := pppoe_decls) (scripted [] []) [].

(** The engine as the [net.PacketConn] of the multiplexer; [WriteTo]
    always returns, so the last branch is never taken. *)
#[export] Instance PPPoE_PacketConn `{D : pppoe.Decls}
  : lcp.PacketConn pppoe.PPPoE pppoe.error :=
  fun b p =>
    match pppoe.WriteTo b p with
    | Done r q => (r, q)
    | Panicked q | Blocks q => ((0, None), q)
    end.

(** * Properties of package lcp *)

Section lcp_properties.
Import lcp.
Context `{D : lcp.Decls}.

Lemma set_lock_same (s : PPP) :
  set_lock (relayChanListLock s) s = s.
Proof. by destruct s. Qed.

Lemma RUnlock_RLock (s s' : PPP) :
  relayChanListLock s ≠ WLocked ->
  RLock s = Done tt s' ->
  relayChanListLock s' ≠ WLocked /\
  (forall s2, relayChanListLock s2 = relayChanListLock s' ->
     relayChanListLock (RUnlock s2) = relayChanListLock s) /\
  relayChanList s' = relayChanList s /\ chans s' = chans s /\
  sendChan s' = sendChan s /\ reqID s' = reqID s.
Proof.
  intros Hw. unfold RLock.
  destruct (relayChanListLock s) eqn:E; try done; intros [= <-]; simpl;
    (split; [done|]); (split; [|done]);
    intros s2 E2; unfold RUnlock; rewrite E2; by destruct s2.
Qed.

Lemma chan_send_ready (s : PPP) (r : nat) (c : Chan) (v : bytes) :
  chans s !! r = Some c -> closed c = false ->
  (length (buf c) < cap c)%nat ->
  chan_send (Some r) v s = Done tt (set_chans (<[r := pushed c v]> (chans s)) s).
Proof.
  intros Hc Ho Hl. unfold chan_send. rewrite Hc, Ho.
  rewrite decide_True by done. done.
Qed.

Lemma ready_Some (s : PPP) (r : nat) :
  ready s (Some r) = true ->
  exists c, chans s !! r = Some c /\ closed c = false /\
            (length (buf c) < cap c)%nat.
Proof.
  unfold ready. destruct (chans s !! r) as [c|]; [|done].
  intros [Hc Hl]%andb_prop. exists c. split; [done|].
  split; [by destruct (closed c)|]. by apply bool_decide_eq_true in Hl.
Qed.

Lemma known_protocols_listed (p : Z) :
  p ∈ known_protocols <->
  p ∈ [ProtoLCP; ProtoPAP; ProtoCHAP; ProtoIPCP; ProtoIPv6CP;
       ProtoIPv4; ProtoIPv6].
Proof.
  unfold known_protocols. rewrite !elem_of_cons, !elem_of_nil. tauto.
Qed.


Lemma sendProtocolRejct_known (b : bytes) (s : PPP) :
  (2 <= length b)%nat ->
  binary.Uint16 (take 2 b) ∈ known_protocols ->
  sendProtocolRejct b s = Done tt s.
Proof.
  intros Hb Hk. unfold sendProtocolRejct. rewrite decide_False by lia.
  by rewrite bool_decide_eq_true_2.
Qed.

Lemma sendProtocolRejct_unknown (b : bytes) (s : PPP) (q : nat) (cq : Chan)
  (body : bytes) :
  (2 <= length b)%nat ->
  binary.Uint16 (take 2 b) ∉ known_protocols ->
  sendChan s = Some q -> chans s !! q = Some cq -> closed cq = false ->
  (length (buf cq) < cap cq)%nat ->
  Pkt_Serialize (reject_pkt ((reqID s + 1) mod 256) b) = Ok body ->
  sendProtocolRejct b s =
    Done tt (set_chans
               (<[q := pushed cq (binary.PutUint16 ProtoLCP ++ body)]> (chans s))
               (set_reqID ((reqID s + 1) mod 256) s)).
Proof.
  intros Hlen Hk Hs Hc Ho Hl Hb. unfold sendProtocolRejct.
  rewrite decide_False by lia.
  rewrite bool_decide_eq_false_2 by done.
  unfold mbind, M_bind, bind, modify, gets. simpl.
  unfold PPPPacket_Serialize, Serialize, Pkt_Serializer. simpl.
  rewrite Hb. simpl. rewrite Hs.
  by rewrite (chan_send_ready _ q cq).
Qed.

Lemma RUnlock_fields (s : PPP) :
  relayChanList (RUnlock s) = relayChanList s /\
  chans (RUnlock s) = chans s /\
  sendChan (RUnlock s) = sendChan s /\ reqID (RUnlock s) = reqID s.
Proof. unfold RUnlock. by destruct (relayChanListLock s) as [|[|n]|]. Qed.

Lemma relay_long (b : bytes) (s : PPP) :
  (2 < length b)%nat ->
  relayChanListLock s ≠ WLocked ->
  (forall r, relayChanList s !! binary.Uint16 (take 2 b) = Some r ->
             ready s (Some r) = true) ->
  exists s', relay b s = Done [b] s' /\
    relayChanListLock s' = relayChanListLock s /\
    reqID s' = reqID s /\ sendChan s' = sendChan s /\
    (forall q, (forall r, relayChanList s !! binary.Uint16 (take 2 b) = Some r
                          -> r ≠ q) ->
               chans s' !! q = chans s !! q) /\
    (forall r c, relayChanList s !! binary.Uint16 (take 2 b) = Some r ->
                 chans s !! r = Some c ->
                 chans s' !! r = Some (pushed c (drop 2 b))).
Proof.
  intros Hlen Hw Hr. unfold relay. rewrite decide_False by lia.
  unfold mbind, M_bind, bind, defer, gets.
  destruct (RLock s) as [[] s1| |] eqn:E1;
    [|unfold RLock in E1; destruct (relayChanListLock s); done..].
  destruct (RUnlock_RLock s s1 Hw E1) as (Hw1 & Hun & Hm & Hch & Hsc & Hid).
  rewrite Hm.
  destruct (relayChanList s !! binary.Uint16 (take 2 b)) as [r|] eqn:Er.
  - destruct (ready_Some s r (Hr r eq_refl)) as (c & Hc & Ho & Hl).
    rewrite (chan_send_ready s1 r c) by (rewrite ?Hch; done). simpl.
    eexists. split; [done|].
    destruct (RUnlock_fields
                (set_chans (<[r:=pushed c (drop 2 b)]> (chans s1)) s1))
      as (_ & F2 & F3 & F4).
    split; [by apply Hun|]. rewrite F2, F3, F4. simpl.
    split; [done|]. split; [done|]. split.
    + intros q Hq. specialize (Hq r eq_refl).
      rewrite lookup_insert_ne by done. by rewrite Hch.
    + intros r' c' [= <-] Hc'. rewrite Hc in Hc'. injection Hc' as <-.
      apply lookup_insert_eq.
  - simpl. eexists. split; [done|].
    destruct (RUnlock_fields s1) as (_ & F2 & F3 & F4).
    split; [by apply Hun|]. rewrite F2, F3, F4.
    split; [done|]. split; [done|]. split; [|done].
    intros q _. by rewrite Hch.
Qed.

(** C5 (as the code has it): [Parse] refuses every input of at most two
    bytes, an input of exactly two bytes included; any longer input
    parses into the protocol number of its first two bytes and the rest
    as payload.  [relay] drops the same frames, those of at most two
    bytes; a longer frame it hands on: the payload goes to the channel
    registered for the number, if there is one, and the frame to the
    protocol-reject check (here on a registry that is not write-locked
    and whose channel for the number has room). *)
Theorem C5_parse_wants_payload (b : bytes) :
  (PPPPacket_Parse b = Err (ErrInvalidLength (length b))
     <-> (length b <= 2)%nat) /\
  ((2 < length b)%nat ->
     PPPPacket_Parse b =
       Ok {| Proto := binary.Uint16 (take 2 b);
             Payload := NewStaticSerializer (drop 2 b) |}) /\
  ((length b <= 2)%nat -> forall s, relay b s = Done [] s) /\
  ((2 < length b)%nat -> forall s,
     relayChanListLock s ≠ WLocked ->
     (forall r, relayChanList s !! binary.Uint16 (take 2 b) = Some r ->
                ready s (Some r) = true) ->
     exists s', relay b s = Done [b] s' /\
       forall r c, relayChanList s !! binary.Uint16 (take 2 b) = Some r ->
                   chans s !! r = Some c ->
                   chans s' !! r = Some (pushed c (drop 2 b))).
Proof.
  split; [|split; [|split]].
  - unfold PPPPacket_Parse. split.
    + case_decide; [done|]. discriminate.
    + intros Hle. by rewrite decide_True.
  - intros Hlt. unfold PPPPacket_Parse. rewrite decide_False by lia. done.
  - intros Hle s. unfold relay. by rewrite decide_True.
  - intros Hlt s Hw Hr.
    destruct (relay_long b s Hlt Hw Hr) as (s' & E & _ & _ & _ & _ & Hdel).
    by exists s'.
Qed.

(** C4: a received frame of more than two bytes whose protocol number is
    none of LCP, PAP, CHAP, IPCP, IPv6CP, IPv4, IPv6 makes the multiplexer
    put on the shared send channel one LCP frame: the LCP protocol number
    followed by the serialized Protocol-Reject packet whose id is the
    request id incremented (modulo 256) and whose payload is the two
    protocol bytes of the frame followed by the whole frame.  For a frame
    with one of the listed numbers nothing is put on the send channel and
    the request id stays.  Both hold when the sends involved do not block:
    the registry is not write-locked, the channel registered for the
    number, if any, is another one than the send channel and has room, and
    the send channel is open and has room. *)
Theorem C4_protocol_reject (b : bytes) (s : PPP) (q : nat) (cq : Chan) :
  (2 < length b)%nat ->
  relayChanListLock s ≠ WLocked ->
  (forall r, relayChanList s !! binary.Uint16 (take 2 b) = Some r ->
             r ≠ q /\ ready s (Some r) = true) ->
  sendChan s = Some q -> chans s !! q = Some cq -> closed cq = false ->
  (length (buf cq) < cap cq)%nat ->
  (forall body,
     binary.Uint16 (take 2 b) ∉
       [ProtoLCP; ProtoPAP; ProtoCHAP; ProtoIPCP; ProtoIPv6CP;
        ProtoIPv4; ProtoIPv6] ->
     Pkt_Serialize (reject_pkt ((reqID s + 1) mod 256) b) = Ok body ->
     exists s', dispatch b s = Done tt s' /\
       reqID s' = (reqID s + 1) mod 256 /\
       chans s' !! q = Some (pushed cq (binary.PutUint16 ProtoLCP ++ body)) /\
       PktPayload (reject_pkt (reqID s') b) = take 2 b ++ b /\
       Code (reject_pkt (reqID s') b) = CodeProtocolReject /\
       ID (reject_pkt (reqID s') b) = (reqID s + 1) mod 256 /\
       PktProto (reject_pkt (reqID s') b) = PktProto (NewPkt ProtoLCP)) /\
  (binary.Uint16 (take 2 b) ∈
     [ProtoLCP; ProtoPAP; ProtoCHAP; ProtoIPCP; ProtoIPv6CP;
      ProtoIPv4; ProtoIPv6] ->
     exists s', dispatch b s = Done tt s' /\
       reqID s' = reqID s /\ chans s' !! q = Some cq).
Proof.
  intros Hlen Hw Hr Hs Hc Ho Hl.
  destruct (relay_long b s Hlen Hw) as (s1 & E1 & Hl1 & Hid1 & Hs1 & Hch1 & _).
  { intros r Er. by apply Hr. }
  assert (chans s1 !! q = Some cq) as Hc1.
  { rewrite Hch1; [done|]. intros r Er. by apply Hr. }
  split.
  - intros body Hk Hb. rewrite <- known_protocols_listed in Hk.
    unfold dispatch, mbind, M_bind, bind. rewrite E1. simpl.
    unfold mbind, M_bind, bind.
    rewrite (sendProtocolRejct_unknown b s1 q cq body)
      by (rewrite ?Hid1, ?Hs1; done || lia).
    eexists. split; [done|]. cbn [reqID chans set_chans set_reqID].
    rewrite Hid1. split; [done|]. split; [apply lookup_insert_eq|]. done.
  - intros Hk. rewrite <- known_protocols_listed in Hk.
    unfold dispatch, mbind, M_bind, bind. rewrite E1. simpl.
    unfold mbind, M_bind, bind.
    rewrite sendProtocolRejct_known by (done || lia).
    simpl. by exists s1.
Qed.

Lemma UnRegister_registered (p : Z) (s : PPP) (r : nat) (c : Chan) :
  relayChanListLock s = Unlocked ->
  relayChanList s !! p = Some r -> chans s !! r = Some c ->
  closed c = false ->
  UnRegister p s =
    Done tt (set_lock Unlocked
      (set_relayChanList (delete p (relayChanList s))
        (set_chans (<[r := {| buf := buf c; closed := true; cap := cap c |}]>
                      (chans s))
           (set_lock WLocked s)))).
Proof.
  intros Hl Hm Hc Ho. unfold UnRegister, mbind, M_bind, bind, Lock, gets.
  rewrite Hl. simpl. rewrite Hm. simpl. rewrite Hc, Ho. done.
Qed.

Lemma UnRegister_Done_inv (p : Z) (s s' : PPP) :
  UnRegister p s = Done tt s' ->
  relayChanListLock s' = Unlocked /\ relayChanList s' !! p = None.
Proof.
  unfold UnRegister, mbind, M_bind, bind, Lock, gets, chan_close, modify.
  destruct (relayChanListLock s); try done. simpl.
  destruct (relayChanList s !! p) as [r|]; [|done].
  destruct (chans s !! r) as [c|]; [|done].
  destruct (closed c); [done|]. simpl. intros [= <-]. simpl.
  split; [done|]. apply lookup_delete_eq.
Qed.

(** C10: [UnRegister p] on a registry that has no mapping for [p] panics
    in [close], which is handed the nil channel of the absent key; it is
    not a no-op, and the registry's lock stays held.  This is the case of
    a [p] never registered, and of a second [UnRegister p] after one that
    returned. *)
Theorem C10_UnRegister_needs_registration (p : Z) (s : PPP) :
  relayChanListLock s = Unlocked ->
  (relayChanList s !! p = None ->
     UnRegister p s = Panicked (set_lock WLocked s)) /\
  (forall s', UnRegister p s = Done tt s' ->
     UnRegister p s' = Panicked (set_lock WLocked s')).
Proof.
  assert (forall t, relayChanListLock t = Unlocked ->
            relayChanList t !! p = None ->
            UnRegister p t = Panicked (set_lock WLocked t)) as Hnone.
  { intros t Hl Hm. unfold UnRegister, mbind, M_bind, bind, Lock, gets.
    rewrite Hl. simpl. by rewrite Hm. }
  intros Hl. split; [by apply Hnone|].
  intros s' [Hl' Hm']%UnRegister_Done_inv. by apply Hnone.
Qed.

End lcp_properties.

(** The frame 00 FF 01 02, of an unassigned protocol number, on a fresh
    multiplexer: one Protocol-Reject frame with id 1 on the send channel.
    A frame of each of the seven listed numbers: the send channel stays
    empty and the request id stays 0. *)
Lemma C4_protocol_reject_witness :
  (exists s',
     lcp.dispatch (D := lcp_decls) [x00; xff; x01; x02] lcp.NewPPP = Done tt s' /\
     lcp.reqID s' = 1 /\
     lcp.chans s' !! 0%nat =
       Some {| lcp.buf := [[xc0; x21; x08; x01; x00; x0a;
                            x00; xff; x00; xff; x01; x02]];
               lcp.closed := false; lcp.cap := 128 |}) /\
  Forall
    (fun b =>
       exists s',
         lcp.dispatch (D := lcp_decls) b lcp.NewPPP = Done tt s' /\
         lcp.reqID s' = 0 /\
         lcp.chans s' !! 0%nat =
           Some {| lcp.buf := []; lcp.closed := false; lcp.cap := 128 |})
    [ [xc0; x21; x01; x02]; [xc0; x23; x01; x02]; [xc2; x23; x01; x02];
      [x80; x21; x01; x02]; [x80; x57; x01; x02]; [x00; x21; x45; x00];
      [x00; x57; x60; x00] ].
Proof.
  split.
  - destruct (C4_protocol_reject (D := lcp_decls) [x00; xff; x01; x02]
                lcp.NewPPP 0%nat
                {| lcp.buf := []; lcp.closed := false; lcp.cap := 128 |})
      as [Hrej _].
    + simpl; lia.
    + discriminate.
    + intros r Hr. vm_compute in Hr. discriminate.
    + reflexivity.
    + reflexivity.
    + reflexivity.
    + simpl; lia.
    + destruct (Hrej [x08; x01; x00; x0a; x00; xff; x00; xff; x01; x02])
        as (s' & Hd & Hid & Hch & _).
      * apply (bool_decide_unpack _). vm_compute. exact I.
      * reflexivity.
      * exists s'. split; [exact Hd|]. split; [exact Hid|]. exact Hch.
  - repeat apply Forall_cons_2; [..|apply Forall_nil_2];
      match goal with
      | |- exists s', lcp.dispatch ?b _ = _ /\ _ =>
        destruct (C4_protocol_reject (D := lcp_decls) b lcp.NewPPP 0%nat
                    {| lcp.buf := []; lcp.closed := false; lcp.cap := 128 |})
          as [_ Hkn];
          [ simpl; lia
          | discriminate
          | intros r Hr; vm_compute in Hr; discriminate
          | reflexivity
          | reflexivity
          | reflexivity
          | simpl; lia
          | destruct Hkn as (s' & Hd & Hid & Hch);
            [ apply (bool_decide_unpack _); vm_compute; exact I
            | exists s'; split; [exact Hd|]; split; [exact Hid|exact Hch] ] ]
      end.
Defined.

(** C5, counterexample to the statement: the two bytes C0 21 do not parse into
    an LCP frame with an empty payload, they are refused. *)
Lemma C5_two_byte_frame_refused :
  ~ (exists pkt, lcp.PPPPacket_Parse [xc0; x21] = Ok pkt) /\
  lcp.PPPPacket_Parse [xc0; x21] = Err (lcp.ErrInvalidLength 2) /\
  forall s, lcp.relay [xc0; x21] s = Done [] s.
Proof.
  split; [|split].
  - intros [pkt Hp]. vm_compute in Hp. discriminate.
  - reflexivity.
  - intros s. reflexivity.
Qed.

Lemma C5_parse_wants_payload_witness :
  lcp.PPPPacket_Parse [xc0; x21; x01] =
    Ok {| lcp.Proto := 0xC021;
          lcp.Payload := lcp.NewStaticSerializer [x01] |} /\
  lcp.PPPPacket_Parse [xc0; x21] = Err (lcp.ErrInvalidLength 2) /\
  lcp.relay [xc0; x21] registered_once = Done [] registered_once /\
  exists s',
    lcp.relay [x00; x21; x45] registered_once = Done [[x00; x21; x45]] s' /\
    lcp.chans s' !! 1%nat =
      Some {| lcp.buf := [[x45]]; lcp.closed := false; lcp.cap := 128 |}.
Proof.
  split; [|split; [|split]].
  - destruct (C5_parse_wants_payload [xc0; x21; x01]) as (_ & Hlong & _).
    apply Hlong. simpl; lia.
  - destruct (C5_parse_wants_payload [xc0; x21]) as (Hshort & _).
    apply Hshort. simpl; lia.
  - destruct (C5_parse_wants_payload [xc0; x21]) as (_ & _ & Hdrop & _).
    apply Hdrop. simpl; lia.
  - destruct (C5_parse_wants_payload [x00; x21; x45]) as (_ & _ & _ & Hrelay).
    destruct (Hrelay ltac:(simpl; lia) registered_once) as (s' & Hr & Hdel).
    + discriminate.
    + intros r Hr. vm_compute in Hr. injection Hr as <-. reflexivity.
    + exists s'. split; [exact Hr|].
      apply (Hdel 1%nat {| lcp.buf := []; lcp.closed := false; lcp.cap := 128 |});
        reflexivity.
Defined.

Lemma C10_UnRegister_needs_registration_witness :
  lcp.UnRegister 0x21 lcp.NewPPP =
    Panicked (lcp.set_lock lcp.WLocked lcp.NewPPP) /\
  exists s2,
    lcp.UnRegister 0x21 registered_once = Done tt s2 /\
    lcp.UnRegister 0x21 s2 = Panicked (lcp.set_lock lcp.WLocked s2).
Proof.
  split.
  - destruct (C10_UnRegister_needs_registration 0x21 lcp.NewPPP) as [Hnone _].
    + reflexivity.
    + apply Hnone. reflexivity.
  - destruct (C10_UnRegister_needs_registration 0x21 registered_once)
      as [_ Hagain]; [reflexivity|].
    eexists. split; [vm_compute; reflexivity|].
    apply Hagain. vm_compute. reflexivity.
Defined.

(** * Properties of package pppoe *)

Section pppoe_properties.
Import pppoe.
Context `{D : pppoe.Decls}.

(** ** The retry loop *)

Lemma quiet_spec (c : EtherConn) (n : nat) (code : Z) :
  quiet c n code = true <->
  forall i, (i < n)%nat ->
    tx c (ntx c + i)%nat = None /\ no_match code (rx c (nrx c + i)%nat) = true.
Proof.
  unfold quiet. rewrite forallb_forall. split.
  - intros Hq i Hi. specialize (Hq i). rewrite in_seq in Hq.
    destruct (andb_prop _ _ (Hq ltac:(lia))) as [Ht Hn].
    split; [by apply bool_decide_eq_true in Ht|done].
  - intros Hq i [_ Hi]%in_seq. destruct (Hq i ltac:(lia)) as [Ht Hn].
    rewrite Hn, andb_true_r. by apply bool_decide_eq_true.
Qed.

Lemma after_attempts_0 (pktbytes : bytes) (dst : HardwareAddr) (tmo : Z)
  (c : EtherConn) :
  after_attempts 0 pktbytes dst tmo c = c.
Proof.
  unfold after_attempts. destruct c; simpl.
  by rewrite !Nat.add_0_r, app_nil_r.
Qed.

Lemma after_attempts_S (n : nat) (pktbytes : bytes) (dst : HardwareAddr)
  (tmo : Z) (c : EtherConn) :
  after_attempts n pktbytes dst tmo (after_attempts 1 pktbytes dst tmo c) =
  after_attempts (S n) pktbytes dst tmo c.
Proof.
  unfold after_attempts; simpl. f_equal; try lia.
  by rewrite <- app_assoc.
Qed.

(** One iteration of the loop, when the write succeeds. *)
Lemma loop_step (n : nat) (pktbytes : bytes) (code : Z) (dst : HardwareAddr)
  (tmo : Z) (c : EtherConn) :
  tx c (ntx c) = None ->
  getResponse_loop (S n) pktbytes code dst tmo c =
    let c1 := after_attempts 1 pktbytes dst tmo c in
    let rr := rx c (nrx c) in
    match hard_error (rr_err rr) with
    | Some e => Done (Err (ErrRecvResponse e)) c1
    | None =>
      match Packet_Parse (rr_buf rr) with
      | Err _ => getResponse_loop n pktbytes code dst tmo c1
      | Ok resp =>
        if decide (Code resp = code) then
          match rr_l2ep rr with
          | Some hw => Done (Ok (resp, hw)) c1
          | None => Panicked c1
          end
        else getResponse_loop n pktbytes code dst tmo c1
      end
    end.
Proof.
  intros Ht. cbn [getResponse_loop WritePktTo SetReadDeadline ReadPkt].
  rewrite Ht. cbn [rx tx nrx ntx trace].
  assert (after_attempts 1 pktbytes dst tmo c =
          {| rx := rx c; tx := tx c; nrx := S (nrx c); ntx := S (ntx c);
             trace := ((trace c ++ [EvWritePktTo pktbytes EtherTypePPPoEDiscovery dst])
                         ++ [EvSetReadDeadline tmo]) ++ [EvReadPkt] |}) as ->.
  { unfold after_attempts, attempt. simpl. f_equal; try lia.
    by rewrite <- !app_assoc. }
  done.
Qed.

(** No matching response in [n] iterations: the loop makes exactly its [n]
    attempts and reports that no response came. *)
Lemma loop_quiet (n : nat) (pktbytes : bytes) (code : Z) (dst : HardwareAddr)
  (tmo : Z) (c : EtherConn) :
  quiet c n code = true ->
  getResponse_loop n pktbytes code dst tmo c =
    Done (Err (ErrNoResponse code)) (after_attempts n pktbytes dst tmo c).
Proof.
  rewrite quiet_spec. revert c. induction n as [|n IH]; intros c Hq.
  - by rewrite after_attempts_0.
  - destruct (Hq 0%nat ltac:(lia)) as [Ht Hn]. rewrite Nat.add_0_r in Ht, Hn.
    rewrite loop_step by done. cbn zeta.
    unfold no_match in Hn.
    destruct (hard_error (rr_err (rx c (nrx c)))); [done|].
    rewrite <- (after_attempts_S n).
    assert (forall i, (i < n)%nat ->
              tx (after_attempts 1 pktbytes dst tmo c)
                 (ntx (after_attempts 1 pktbytes dst tmo c) + i)%nat = None /\
              no_match code
                (rx (after_attempts 1 pktbytes dst tmo c)
                    (nrx (after_attempts 1 pktbytes dst tmo c) + i)%nat) = true)
      as Hq'.
    { intros i Hi. simpl. replace (ntx c + 1 + i)%nat with (ntx c + S i)%nat by lia.
      replace (nrx c + 1 + i)%nat with (nrx c + S i)%nat by lia.
      apply Hq. lia. }
    destruct (Packet_Parse (rr_buf (rx c (nrx c)))) as [resp|e].
    + apply bool_decide_eq_true in Hn. rewrite decide_False by done.
      by apply IH.
    + by apply IH.
Qed.

(** A matching response at the iteration of index [k], after [k] that
    brought nothing: the loop returns it with its sender. *)
Lemma loop_match (k n : nat) (pktbytes : bytes) (code : Z)
  (dst : HardwareAddr) (tmo : Z) (c : EtherConn) (resp : Packet)
  (hw : HardwareAddr) :
  (k < n)%nat ->
  quiet c k code = true ->
  tx c (ntx c + k)%nat = None ->
  hard_error (rr_err (rx c (nrx c + k)%nat)) = None ->
  Packet_Parse (rr_buf (rx c (nrx c + k)%nat)) = Ok resp ->
  Code resp = code ->
  rr_l2ep (rx c (nrx c + k)%nat) = Some hw ->
  getResponse_loop n pktbytes code dst tmo c =
    Done (Ok (resp, hw)) (after_attempts (S k) pktbytes dst tmo c).
Proof.
  rewrite quiet_spec. revert n c.
  induction k as [|k IH]; intros n c Hk Hq Ht Hh Hp Hc Hl.
  - destruct n as [|n]; [lia|]. rewrite Nat.add_0_r in Ht, Hh, Hp, Hl.
    rewrite loop_step by done. cbn zeta. rewrite Hh, Hp, Hl.
    by rewrite decide_True.
  - destruct n as [|n]; [lia|].
    destruct (Hq 0%nat ltac:(lia)) as [Ht0 Hn0].
    rewrite Nat.add_0_r in Ht0, Hn0.
    rewrite loop_step by done. cbn zeta. unfold no_match in Hn0.
    destruct (hard_error (rr_err (rx c (nrx c)))); [done|].
    rewrite <- (after_attempts_S (S k)).
    assert (getResponse_loop n pktbytes code dst tmo
              (after_attempts 1 pktbytes dst tmo c) =
            Done (Ok (resp, hw))
              (after_attempts (S k) pktbytes dst tmo
                 (after_attempts 1 pktbytes dst tmo c))) as Hrec.
    { apply IH; simpl; try lia;
        rewrite <- ?(Nat.add_assoc (ntx c)), <- ?(Nat.add_assoc (nrx c));
        try done.
      intros i Hi. rewrite <- (Nat.add_assoc (ntx c)), <- (Nat.add_assoc (nrx c)).
      apply Hq. lia. }
    destruct (Packet_Parse (rr_buf (rx c (nrx c)))) as [resp0|e]; [|done].
    apply bool_decide_eq_true in Hn0. by rewrite decide_False.
Qed.

Lemma loop_not_blocks (n : nat) (pktbytes : bytes) (code : Z)
  (dst : HardwareAddr) (tmo : Z) (c c' : EtherConn) :
  getResponse_loop n pktbytes code dst tmo c ≠ Blocks c'.
Proof.
  revert c. induction n as [|n IH]; intros c; [done|].
  cbn [getResponse_loop WritePktTo SetReadDeadline ReadPkt].
  destruct (tx c (ntx c)); [done|]. cbn [rx nrx].
  destruct (hard_error _); [done|].
  destruct (Packet_Parse _) as [resp|]; [|apply IH].
  destruct (decide _); [|apply IH]. by destruct (rr_l2ep _).
Qed.

(** [getResponse] touches nothing of the engine but its connection, and
    it does not block. *)
Lemma getResponse_inv (pppoe : PPPoE) (req : Packet) (code : Z)
  (dst : HardwareAddr) :
  match getResponse pppoe req code dst with
  | Blocks _ => False
  | Done _ q | Panicked q => q = set_conn (conn q) pppoe
  end.
Proof.
  unfold getResponse. destruct (Packet_Serialize req); [|by destruct pppoe].
  destruct (getResponse_loop _ _ _ _ _ _) eqn:E; try done.
  by apply loop_not_blocks in E.
Qed.

Lemma getResponse_Done_inv (pppoe q : PPPoE) (req : Packet) (code : Z)
  (dst : HardwareAddr) (r : result error (Packet * HardwareAddr)) :
  getResponse pppoe req code dst = Done r q -> q = set_conn (conn q) pppoe.
Proof.
  intros E. pose proof (getResponse_inv pppoe req code dst) as Hi.
  by rewrite E in Hi.
Qed.

Lemma getResponse_quiet (pppoe : PPPoE) (req : Packet) (code : Z)
  (dst : HardwareAddr) (pktbytes : bytes) :
  Packet_Serialize req = Ok pktbytes ->
  quiet (conn pppoe) (Z.to_nat (retry pppoe)) code = true ->
  getResponse pppoe req code dst =
    Done (Err (ErrNoResponse code))
      (set_conn (after_attempts (Z.to_nat (retry pppoe)) pktbytes dst
                   (timeout pppoe) (conn pppoe)) pppoe).
Proof.
  intros Hs Hq. unfold getResponse. rewrite Hs.
  by rewrite loop_quiet.
Qed.

(** ** Dial *)

(** C1: when the PADS that [Dial] receives has session id 0, [Dial]
    returns the rejection error and the state ends in Closed, not in
    Open.  That a PADS is received means that the first exchange returned
    a PADO from some sender and the second one returned the PADS. *)
Theorem C1_Dial_rejected (pppoe p1 p2 : PPPoE) (pado pads : Packet)
  (hw hw2 : HardwareAddr) :
  let p0 := StoreState pppoeStateDialing pppoe in
  getResponse p0 (buildPADI p0) CodePADO BroadCastMAC = Done (Ok (pado, hw)) p1 ->
  getResponse (set_acMAC hw p1) (buildPADRWithPADO (set_acMAC hw p1) pado)
    CodePADS hw = Done (Ok (pads, hw2)) p2 ->
  SessionID pads = 0 ->
  exists p',
    Dial pppoe = Done (Some (ErrRejected pads)) p' /\
    state p' = pppoeStateClosed /\ state p' ≠ pppoeStateOpen /\
    stores p' = stores pppoe ++ [pppoeStateDialing; pppoeStateClosed].
Proof.
  intros p0 H1 H2 Hsid. unfold Dial, Dial_body. fold p0. rewrite H1.
  cbn [acMAC set_acMAC]. rewrite H2. rewrite decide_True by done.
  apply getResponse_Done_inv in H1, H2.
  eexists. split; [done|].
  unfold Dial_deferred. rewrite H2, H1. cbn.
  rewrite decide_True by done. cbn.
  split; [done|]. split; [done|]. by rewrite <- app_assoc.
Qed.

(** ** WriteTo and Close on an open session *)

Lemma WriteTo_open (pppoe : PPPoE) (p frame : bytes) :
  state pppoe = pppoeStateOpen ->
  Packet_Serialize (session_pkt (sessionID pppoe) p) = Ok frame ->
  tx (conn pppoe) (ntx (conn pppoe)) = None ->
  WriteTo p pppoe =
    Done (Z.of_nat (length p), None)
      (set_conn
         (WritePktTo frame EtherTypePPPoESession (acMAC pppoe) (conn pppoe)).2
         pppoe).
Proof.
  intros Hst Hs Ht. unfold WriteTo. rewrite decide_False by (by intros []).
  unfold session_pkt in Hs. rewrite Hs. unfold WritePktTo. by rewrite Ht.
Qed.

Lemma WriteTo_not_open (pppoe : PPPoE) (p : bytes) :
  state pppoe ≠ pppoeStateOpen ->
  WriteTo p pppoe = Done (0, Some ErrNotOpen) pppoe.
Proof. intros Hst. unfold WriteTo. by rewrite decide_True. Qed.

Lemma WriteTo_each_open (ps frames : list bytes) (pppoe : PPPoE) :
  state pppoe = pppoeStateOpen ->
  Forall2 (fun p f => Packet_Serialize (session_pkt (sessionID pppoe) p) = Ok f)
    ps frames ->
  (forall i, (i < length ps)%nat ->
             tx (conn pppoe) (ntx (conn pppoe) + i)%nat = None) ->
  exists q,
    WriteTo_each ps pppoe =
      Done (map (fun p => (Z.of_nat (length p), None)) ps) q /\
    trace (conn q) =
      trace (conn pppoe)
        ++ map (fun f => EvWritePktTo f EtherTypePPPoESession (acMAC pppoe))
             frames /\
    state q = pppoeStateOpen /\ sessionID q = sessionID pppoe /\
    acMAC q = acMAC pppoe.
Proof.
  revert frames pppoe.
  induction ps as [|p ps IH]; intros frames pppoe Hst Hf Ht.
  - apply Forall2_nil_inv_l in Hf as ->. exists pppoe. simpl.
    by rewrite app_nil_r.
  - apply Forall2_cons_inv_l in Hf as (f & fs & Hs & Hfs & ->).
    cbn [WriteTo_each].
    rewrite (WriteTo_open pppoe p f); try done;
      [|specialize (Ht 0%nat); rewrite Nat.add_0_r in Ht; apply Ht; simpl; lia].
    edestruct (IH fs (set_conn
                     (WritePktTo f EtherTypePPPoESession (acMAC pppoe)
                        (conn pppoe)).2 pppoe))
      as (q & Hq & Htr & Hst' & Hsid & Hmac); [done|exact Hfs| |].
    { intros i Hi. cbn [conn set_conn WritePktTo snd tx ntx].
      replace (S (ntx (conn pppoe)) + i)%nat
        with (ntx (conn pppoe) + S i)%nat by lia.
      apply Ht. simpl. lia. }
    exists q. rewrite Hq. split; [done|]. split; [|done].
    rewrite Htr. simpl. by rewrite <- app_assoc.
Qed.

(** C2: when [Dial] receives a PADO and then a PADS with a nonzero session
    id, it returns no error and the state is Open, the session id is the
    one of the PADS and the peer address is the sender of the PADO.  From
    there each [WriteTo p] of a run of calls sends, to that address and
    with the session ethertype, the serialization of the packet with code
    Session, that session id and payload [p], and returns [len(p)] and no
    error; this as long as the serialization and the write on the
    connection succeed. *)
Theorem C2_Dial_open_then_WriteTo (pppoe p1 p2 : PPPoE) (pado pads : Packet)
  (hw hw2 : HardwareAddr) :
  let p0 := StoreState pppoeStateDialing pppoe in
  getResponse p0 (buildPADI p0) CodePADO BroadCastMAC = Done (Ok (pado, hw)) p1 ->
  getResponse (set_acMAC hw p1) (buildPADRWithPADO (set_acMAC hw p1) pado)
    CodePADS hw = Done (Ok (pads, hw2)) p2 ->
  SessionID pads ≠ 0 ->
  exists p',
    Dial pppoe = Done None p' /\
    state p' = pppoeStateOpen /\
    sessionID p' = SessionID pads /\ acMAC p' = hw /\
    forall ps frames,
      Forall2 (fun p f => Packet_Serialize
                 {| Code := CodeSession; SessionID := SessionID pads;
                    Tags := []; Payload := p |} = Ok f) ps frames ->
      (forall i, (i < length ps)%nat ->
                 tx (conn p') (ntx (conn p') + i)%nat = None) ->
      exists q,
        WriteTo_each ps p' =
          Done (map (fun p => (Z.of_nat (length p), None)) ps) q /\
        trace (conn q) =
          trace (conn p')
            ++ map (fun f => EvWritePktTo f EtherTypePPPoESession hw) frames /\
        state q = pppoeStateOpen.
Proof.
  intros p0 H1 H2 Hsid. unfold Dial, Dial_body. fold p0. rewrite H1.
  cbn [acMAC set_acMAC]. rewrite H2. rewrite decide_False by done.
  apply getResponse_Done_inv in H1, H2.
  eexists. split; [done|]. unfold Dial_deferred. cbn.
  split; [done|]. split; [done|]. split; [by rewrite H2|].
  intros ps frames Hf Ht.
  edestruct (WriteTo_each_open ps frames) as (q & Hq & Htr & Hst & _);
    [| | exact Ht|].
  - done.
  - exact Hf.
  - exists q. split; [exact Hq|]. split; [|done].
    rewrite Htr. cbn. by rewrite H2.
Qed.

(** Close never stores to the state and leaves the session as it is. *)
Lemma Close_inv (pppoe : PPPoE) :
  exists r q, Close pppoe = Done r q /\ q = set_conn (conn q) pppoe.
Proof.
  unfold Close. destruct (decide _); [|by exists None, pppoe; destruct pppoe].
  destruct (Packet_Serialize _); [|by eexists _, pppoe; destruct pppoe].
  eexists _, _. split; [done|]. done.
Qed.

Lemma WriteTo_inv (pppoe : PPPoE) (p : bytes) :
  exists r q, WriteTo p pppoe = Done r q /\ q = set_conn (conn q) pppoe.
Proof.
  unfold WriteTo. destruct (decide _); [by eexists _, pppoe; destruct pppoe|].
  destruct (Packet_Serialize _); [|by eexists _, pppoe; destruct pppoe].
  cbn. destruct (tx _ _); by eexists _, _.
Qed.

(** C6 (as the code has it): [Close] on an Open instance leaves the state
    Open, with the same session id and peer address, so the instance stays
    usable for [WriteTo]: the next [WriteTo p] sends the session packet
    and returns [len(p)] when serialization and the write succeed, and
    does not return the not-open error. *)
Theorem C6_Close_keeps_session_open (pppoe : PPPoE) :
  state pppoe = pppoeStateOpen ->
  exists r q,
    Close pppoe = Done r q /\
    state q = pppoeStateOpen /\ sessionID q = sessionID pppoe /\
    acMAC q = acMAC pppoe /\
    (forall p frame,
      Packet_Serialize (session_pkt (sessionID pppoe) p) = Ok frame ->
      tx (conn q) (ntx (conn q)) = None ->
      exists q',
        WriteTo p q = Done (Z.of_nat (length p), None) q' /\
        trace (conn q') =
          trace (conn q)
            ++ [EvWritePktTo frame EtherTypePPPoESession (acMAC pppoe)]) /\
    (forall p n q', WriteTo p q ≠ Done (n, Some ErrNotOpen) q').
Proof.
  intros Hst. destruct (Close_inv pppoe) as (r & q & Hc & Hq).
  exists r, q. split; [done|].
  assert (state q = pppoeStateOpen) as Hst' by (by rewrite Hq).
  assert (sessionID q = sessionID pppoe) as Hsid by (by rewrite Hq).
  assert (acMAC q = acMAC pppoe) as Hmac by (by rewrite Hq).
  repeat (split; [done|]). split.
  - intros p frame Hs Ht. eexists. split.
    + apply WriteTo_open; [done| by rewrite Hsid | done].
    + cbn. by rewrite Hmac.
  - intros p n q'. unfold WriteTo. rewrite decide_False by naive_solver.
    destruct (Packet_Serialize _); [|done]. cbn. by destruct (tx _ _).
Qed.

(** C7 (as the code has it): [Close] with state Open builds the PADT for
    the current session id and writes it, as a discovery frame, to the
    peer address; it returns nil whether that write succeeded or failed
    (the failure is only logged), and returns an error only when the PADT
    does not serialize, in which case nothing is written.  [Close] with
    any other state writes nothing and returns nil.  It never panics. *)
Theorem C7_Close_returns_nil_after_send (pppoe : PPPoE) :
  (state pppoe = pppoeStateOpen ->
   forall pktbytes,
     Packet_Serialize (buildPADT pppoe) = Ok pktbytes ->
     SessionID (buildPADT pppoe) = sessionID pppoe /\
     Code (buildPADT pppoe) = CodePADT /\
     exists q,
       Close pppoe = Done None q /\
       q = set_conn (conn q) pppoe /\
       trace (conn q) =
         trace (conn pppoe)
           ++ [EvWritePktTo pktbytes EtherTypePPPoEDiscovery (acMAC pppoe)]) /\
  (state pppoe = pppoeStateOpen ->
   forall e,
     Packet_Serialize (buildPADT pppoe) = Err e ->
     Close pppoe = Done (Some e) pppoe) /\
  (state pppoe ≠ pppoeStateOpen -> Close pppoe = Done None pppoe).
Proof.
  unfold Close. split; [|split].
  - intros Hst pktbytes Hs. split; [done|]. split; [done|].
    rewrite decide_True by done. rewrite Hs. cbn.
    eexists. split; [done|]. by split.
  - intros Hst e He. rewrite decide_True by done. by rewrite He.
  - intros Hst. by rewrite decide_False.
Qed.

(** ** Retries and the state history *)

Lemma NewPPPoE_defaults (c : EtherConn) (options : list Modifier) :
  Forall (fun o => (exists d, o = WithDebug d) \/ (exists t, o = WithTags t))
    options ->
  retry (NewPPPoE c options) = DefaultRetry /\
  timeout (NewPPPoE c options) = DefaultTimeout.
Proof.
  intros Ho. unfold NewPPPoE. cbn [retry timeout].
  match goal with
  | |- retry (foldl _ ?r0 _) = _ /\ _ =>
    assert (retry r0 = DefaultRetry /\ timeout r0 = DefaultTimeout) as Hr0
      by done;
    generalize dependent r0
  end.
  induction Ho as [|o options Ho _ IH]; intros r0 Hr0; [done|].
  cbn [foldl]. apply IH.
  destruct Ho as [[d ->]|[[l|] ->]]; by destruct r0.
Qed.

(** C3: when none of the reads of a [getResponse] brings a packet of the
    code waited for (each read times out, or brings something that does
    not parse or has another code) and the writes succeed, the loop makes
    exactly [retry] attempts, each one a write of the request, a read
    deadline set [timeout] from now and one read; then [Dial] returns the
    no-response error and the state is Closed.  This holds for the PADI,
    waiting for a PADO, and for the PADR, waiting for a PADS.  An engine
    made by [NewPPPoE] with the package's options has [retry] 3 and
    [timeout] 3 seconds. *)
Theorem C3_no_response_times_out (pppoe : PPPoE) :
  let p0 := StoreState pppoeStateDialing pppoe in
  let n := Z.to_nat (retry pppoe) in
  (forall padi,
     Packet_Serialize (buildPADI p0) = Ok padi ->
     quiet (conn pppoe) n CodePADO = true ->
     exists p',
       Dial pppoe = Done (Some (ErrNoResponse CodePADO)) p' /\
       state p' = pppoeStateClosed /\
       ntx (conn p') = (ntx (conn pppoe) + n)%nat /\
       trace (conn p') =
         trace (conn pppoe)
           ++ concat (replicate n
                        [EvWritePktTo padi EtherTypePPPoEDiscovery BroadCastMAC;
                         EvSetReadDeadline (timeout pppoe); EvReadPkt])) /\
  (forall pado hw p1 padr,
     getResponse p0 (buildPADI p0) CodePADO BroadCastMAC
       = Done (Ok (pado, hw)) p1 ->
     Packet_Serialize (buildPADRWithPADO (set_acMAC hw p1) pado) = Ok padr ->
     quiet (conn p1) n CodePADS = true ->
     exists p',
       Dial pppoe = Done (Some (ErrNoResponse CodePADS)) p' /\
       state p' = pppoeStateClosed /\
       ntx (conn p') = (ntx (conn p1) + n)%nat /\
       trace (conn p') =
         trace (conn p1)
           ++ concat (replicate n
                        [EvWritePktTo padr EtherTypePPPoEDiscovery hw;
                         EvSetReadDeadline (timeout pppoe); EvReadPkt])) /\
  (forall c options,
     Forall (fun o => (exists d, o = WithDebug d) \/ (exists t, o = WithTags t))
       options ->
     retry (NewPPPoE c options) = 3 /\
     timeout (NewPPPoE c options) = 3 * 1000000000).
Proof.
  intros p0 n. split; [|split].
  - intros padi Hs Hq. unfold Dial, Dial_body. fold p0.
    rewrite (getResponse_quiet p0 _ _ _ padi) by done.
    eexists. split; [done|]. unfold Dial_deferred. cbn.
    rewrite decide_True by done. by cbn.
  - intros pado hw p1 padr H1 Hs Hq. unfold Dial, Dial_body. fold p0.
    rewrite H1. cbn [acMAC set_acMAC].
    apply getResponse_Done_inv in H1.
    assert (retry (set_acMAC hw p1) = retry pppoe) as Hr by (by rewrite H1).
    assert (timeout (set_acMAC hw p1) = timeout pppoe) as Hto by (by rewrite H1).
    rewrite (getResponse_quiet (set_acMAC hw p1) _ _ _ padr);
      [|done|by rewrite Hr].
    rewrite Hr, Hto. eexists. split; [done|]. unfold Dial_deferred.
    rewrite H1. cbn. rewrite decide_True by done. by cbn.
  - apply NewPPPoE_defaults.
Qed.

(** C8 (as the code has it): [Close] and [WriteTo] never store to the
    state, and one run of [Dial] stores Dialing once, at its start, and
    after it exactly one of Open and Closed.  So an Open state is followed
    by Dialing only when [Dial] is called again on the open instance,
    which the code does not refuse. *)
Theorem C8_only_a_new_Dial_leaves_Open (pppoe : PPPoE) :
  (exists r q, Close pppoe = Done r q /\
     stores q = stores pppoe /\ state q = state pppoe) /\
  (forall p, exists r q, WriteTo p pppoe = Done r q /\
     stores q = stores pppoe /\ state q = state pppoe) /\
  ((stores (final (Dial pppoe))
       = stores pppoe ++ [pppoeStateDialing; pppoeStateOpen] /\
     state (final (Dial pppoe)) = pppoeStateOpen) \/
   (stores (final (Dial pppoe))
       = stores pppoe ++ [pppoeStateDialing; pppoeStateClosed] /\
     state (final (Dial pppoe)) = pppoeStateClosed)).
Proof.
  split; [|split].
  - destruct (Close_inv pppoe) as (r & q & Hc & Hq).
    exists r, q. split; [done|]. by rewrite Hq.
  - intros p. destruct (WriteTo_inv pppoe p) as (r & q & Hc & Hq).
    exists r, q. split; [done|]. by rewrite Hq.
  - unfold Dial, Dial_body.
    set (p0 := StoreState pppoeStateDialing pppoe).
    pose proof (getResponse_inv p0 (buildPADI p0) CodePADO BroadCastMAC) as H1.
    destruct (getResponse p0 _ _ _) as [[[pado hw]|e] p1|p1|p1]; [| | |done].
    + cbn [acMAC set_acMAC].
      pose proof (getResponse_inv (set_acMAC hw p1)
                    (buildPADRWithPADO (set_acMAC hw p1) pado) CodePADS hw) as H2.
      destruct (getResponse (set_acMAC hw p1) _ _ _)
        as [[[pads hw2]|e] p2|p2|p2]; [| | |done].
      * destruct (decide (SessionID pads = 0)).
        -- right. cbn [final]. unfold Dial_deferred. rewrite H2, H1. cbn.
           rewrite decide_True by done. cbn. by rewrite <- app_assoc.
        -- left. cbn [final]. unfold Dial_deferred. cbn.
           rewrite decide_False by naive_solver.
           rewrite H2, H1. cbn. by rewrite <- app_assoc.
      * right. cbn [final]. unfold Dial_deferred. rewrite H2, H1. cbn.
        rewrite decide_True by done. cbn. by rewrite <- app_assoc.
      * right. cbn [final]. unfold Dial_deferred. rewrite H2, H1. cbn.
        rewrite decide_True by done. cbn. by rewrite <- app_assoc.
    + right. cbn [final]. unfold Dial_deferred. rewrite H1. cbn.
      rewrite decide_True by done. cbn. by rewrite <- app_assoc.
    + right. cbn [final]. unfold Dial_deferred. rewrite H1. cbn.
      rewrite decide_True by done. cbn. by rewrite <- app_assoc.
Qed.

(** ** The tags of PADI and PADR *)

Lemma NewPPPoE_WithTags (c : EtherConn) (l : list Tag) :
  tags (NewPPPoE c [WithTags (Some l)]) = l.
Proof. reflexivity. Qed.

(** Without [WithTags] the PADI has the one default service-name tag. *)
Lemma buildPADI_default (c : EtherConn) (ds : list bool) :
  Tags (buildPADI (NewPPPoE c (map WithDebug ds))) = [serviceNameTag EmptyString].
Proof.
  unfold buildPADI, NewPPPoE. cbn [Tags tags].
  match goal with
  | |- tags (foldl _ ?r0 _) = _ =>
    assert (tags r0 = [serviceNameTag EmptyString]) as Hr0 by done;
    generalize dependent r0
  end.
  induction ds as [|d ds IH]; intros r0 Hr0; [done|].
  cbn [map foldl]. apply IH. by destruct r0.
Qed.

Lemma filter_type_none (ty : Z) (l : list Tag) :
  Forall (fun t => Type_ t ≠ ty) l ->
  filter (fun tag => Type_ tag = ty) l = [].
Proof.
  induction 1 as [|t l Ht _ IH]; [done|].
  rewrite filter_cons. by rewrite decide_False.
Qed.

(** The PADR, the sibling of the PADI, has exactly one service-name tag
    whatever the configured tags are. *)
Lemma buildPADRWithPADO_one_service_name (pppoe : PPPoE) (pado : Packet) :
  TagTypeACCookie ≠ TagTypeServiceName ->
  TagTypeRelaySessionID ≠ TagTypeServiceName ->
  (forall ty, Forall (fun t => Type_ t = ty) (GetTag pado ty)) ->
  count_type TagTypeServiceName (Tags (buildPADRWithPADO pppoe pado)) = 1%nat.
Proof.
  intros Hc Hr Hg. unfold count_type, buildPADRWithPADO. cbn [Tags].
  rewrite !filter_app, !length_app.
  rewrite (filter_type_none _ (GetTag pado TagTypeACCookie)),
          (filter_type_none _ (GetTag pado TagTypeRelaySessionID)),
          (filter_type_none _ (filter _ (tags pppoe))).
  - rewrite filter_cons, decide_True by done. done.
  - apply Forall_forall. by intros t [Ht _]%list_elem_of_filter.
  - eapply Forall_impl; [apply Hg|]. intros t Ht. cbn in Ht. congruence.
  - eapply Forall_impl; [apply Hg|]. intros t Ht. cbn in Ht. congruence.
Qed.

End pppoe_properties.

(** ** The engine on scripted connections *)

(** A PADO, then a PADS with session id 0. *)
Lemma C1_Dial_rejected_witness :
  exists p',
    pppoe.Dial (D := pppoe_decls)
      (pppoe.NewPPPoE (D := pppoe_decls)
         (scripted [rx_packet pado_pkt ac_mac; rx_packet (pads_pkt 0) ac_mac] [])
         [])
    = Done (Some (pppoe.ErrRejected (pads_pkt 0))) p' /\
    pppoe.state p' = pppoe.pppoeStateClosed.
Proof.
  edestruct (C1_Dial_rejected (D := pppoe_decls)
               (pppoe.NewPPPoE (D := pppoe_decls)
                  (scripted [rx_packet pado_pkt ac_mac;
                             rx_packet (pads_pkt 0) ac_mac] []) []))
    as (p' & Hd & Hst & _).
  - vm_compute. reflexivity.
  - vm_compute. reflexivity.
  - reflexivity.
  - exists p'. split; [exact Hd|exact Hst].
Defined.

(** A PADO, then a PADS with session id 0x1234, then two payloads. *)
Lemma C2_Dial_open_then_WriteTo_witness :
  exists p' q,
    pppoe.Dial (D := pppoe_decls)
      (pppoe.NewPPPoE (D := pppoe_decls)
         (scripted [rx_packet pado_pkt ac_mac;
                    rx_packet (pads_pkt 0x1234) ac_mac] []) [])
    = Done None p' /\
    pppoe.state p' = pppoe.pppoeStateOpen /\
    pppoe.sessionID p' = 0x1234 /\
    pppoe.acMAC p' = ac_mac /\
    pppoe.WriteTo_each (D := pppoe_decls) [[x01]; [x02; x03]] p'
      = Done [(1, None); (2, None)] q /\
    pppoe.trace (pppoe.conn q) =
      pppoe.trace (pppoe.conn p')
        ++ [pppoe.EvWritePktTo [x11; x00; x12; x34; x00; x01; x01]
              0x8864 ac_mac;
            pppoe.EvWritePktTo [x11; x00; x12; x34; x00; x02; x02; x03]
              0x8864 ac_mac].
Proof.
  edestruct (C2_Dial_open_then_WriteTo (D := pppoe_decls)
               (pppoe.NewPPPoE (D := pppoe_decls)
                  (scripted [rx_packet pado_pkt ac_mac;
                             rx_packet (pads_pkt 0x1234) ac_mac] []) []))
    as (p' & Hd & Hst & Hsid & Hmac & Hw).
  - vm_compute. reflexivity.
  - vm_compute. reflexivity.
  - vm_compute. discriminate.
  - edestruct (Hw [[x01]; [x02; x03]]
                 [[x11; x00; x12; x34; x00; x01; x01];
                  [x11; x00; x12; x34; x00; x02; x02; x03]])
      as (q & Hq & Htr & _).
    + repeat constructor.
    + intros i Hi. vm_compute in Hd. injection Hd as <-. reflexivity.
    + exists p', q. repeat (split; [assumption|]). exact Htr.
Defined.

(** A connection on which nothing ever arrives, and one on which nothing
    arrives after the PADO. *)
Lemma C3_no_response_times_out_witness :
  (exists p',
     pppoe.Dial (D := pppoe_decls)
       (pppoe.NewPPPoE (D := pppoe_decls) (scripted [] []) [])
     = Done (Some (pppoe.ErrNoResponse 0x07)) p' /\
     pppoe.state p' = pppoe.pppoeStateClosed /\
     pppoe.ntx (pppoe.conn p') = 3%nat /\
     pppoe.trace (pppoe.conn p') =
       concat (replicate 3
         [pppoe.EvWritePktTo
            [x11; x09; x00; x00; x00; x04; x01; x01; x00; x00] 0x8863
            [xff; xff; xff; xff; xff; xff];
          pppoe.EvSetReadDeadline 3000000000; pppoe.EvReadPkt])) /\
  (exists p',
     pppoe.Dial (D := pppoe_decls)
       (pppoe.NewPPPoE (D := pppoe_decls)
          (scripted [rx_packet pado_pkt ac_mac] []) [])
     = Done (Some (pppoe.ErrNoResponse 0x65)) p' /\
     pppoe.state p' = pppoe.pppoeStateClosed /\
     pppoe.ntx (pppoe.conn p') = 4%nat) /\
  pppoe.retry
    (pppoe.NewPPPoE (D := pppoe_decls) (scripted [] [])
       [pppoe.WithDebug true; pppoe.WithTags (Some [])]) = 3.
Proof.
  split; [|split].
  - destruct (C3_no_response_times_out (D := pppoe_decls)
                (pppoe.NewPPPoE (D := pppoe_decls) (scripted [] []) []))
      as (Hpadi & _ & _).
    destruct (Hpadi [x11; x09; x00; x00; x00; x04; x01; x01; x00; x00])
      as (p' & Hd & Hst & Hn & Htr).
    + reflexivity.
    + vm_compute. reflexivity.
    + exists p'. split; [exact Hd|]. split; [exact Hst|].
      split; [exact Hn|exact Htr].
  - destruct (C3_no_response_times_out (D := pppoe_decls)
                (pppoe.NewPPPoE (D := pppoe_decls)
                   (scripted [rx_packet pado_pkt ac_mac] []) []))
      as (_ & Hpadr & _).
    edestruct Hpadr as (p' & Hd & Hst & Hn & _).
    + vm_compute. reflexivity.
    + vm_compute. reflexivity.
    + vm_compute. reflexivity.
    + exists p'. split; [exact Hd|]. split; [exact Hst|exact Hn].
  - destruct (C3_no_response_times_out (D := pppoe_decls)
                (pppoe.NewPPPoE (D := pppoe_decls) (scripted [] []) []))
      as (_ & _ & Hdef).
    apply (Hdef (scripted [] []) [pppoe.WithDebug true; pppoe.WithTags (Some [])]).
    constructor; [left; by exists true|].
    constructor; [right; by exists (Some [])|].
    constructor.
Defined.

(** C6, counterexample to the statement: on the session opened with id 0x1234,
    [Close] returns and the [WriteTo] that follows does not return an
    error; it sends the session packet and returns the payload's length. *)
Lemma C6_WriteTo_after_Close_succeeds :
  pppoe.state open_engine = pppoe.pppoeStateOpen /\
  exists q q',
    pppoe.Close (D := pppoe_decls) open_engine = Done None q /\
    pppoe.WriteTo (D := pppoe_decls) [x01] q = Done (1, None) q' /\
    pppoe.trace (pppoe.conn q') =
      pppoe.trace (pppoe.conn q)
        ++ [pppoe.EvWritePktTo [x11; x00; x12; x34; x00; x01; x01]
              0x8864 ac_mac] /\
    ~ (exists n e q'',
         pppoe.WriteTo (D := pppoe_decls) [x01] q = Done (n, Some e) q'').
Proof.
  split; [reflexivity|]. eexists _, _.
  split; [vm_compute; reflexivity|].
  split; [vm_compute; reflexivity|].
  split; [vm_compute; reflexivity|].
  intros (n & e & q'' & Hw). vm_compute in Hw. discriminate.
Qed.

Lemma C6_Close_keeps_session_open_witness :
  exists r q q',
    pppoe.Close (D := pppoe_decls) open_engine = Done r q /\
    pppoe.state q = pppoe.pppoeStateOpen /\
    pppoe.WriteTo (D := pppoe_decls) [x01] q = Done (1, None) q'.
Proof.
  destruct (C6_Close_keeps_session_open (D := pppoe_decls) open_engine)
    as (r & q & Hc & Hst & _ & _ & Hw & _).
  - reflexivity.
  - destruct (Hw [x01] [x11; x00; x12; x34; x00; x01; x01]) as (q' & Hq' & _).
    + reflexivity.
    + vm_compute in Hc. injection Hc as _ <-. reflexivity.
    + exists r, q, q'. split; [exact Hc|]. split; [exact Hst|exact Hq'].
Defined.

(** C7, counterexample to the statement: on the open session whose link refuses
    the next write, the PADT is written, the write fails, and [Close]
    returns nil, not an error. *)
Lemma C7_failed_PADT_send_returns_nil :
  pppoe.state open_engine_bad_link = pppoe.pppoeStateOpen /\
  pppoe.tx (pppoe.conn open_engine_bad_link)
    (pppoe.ntx (pppoe.conn open_engine_bad_link)) = Some pppoe.ErrIO /\
  (exists q,
     pppoe.Close (D := pppoe_decls) open_engine_bad_link = Done None q /\
     pppoe.trace (pppoe.conn q) =
       pppoe.trace (pppoe.conn open_engine_bad_link)
         ++ [pppoe.EvWritePktTo [x11; xa7; x12; x34; x00; x00] 0x8863 ac_mac]) /\
  ~ (exists e q,
       pppoe.Close (D := pppoe_decls) open_engine_bad_link = Done (Some e) q).
Proof.
  split; [reflexivity|]. split; [reflexivity|]. split.
  - eexists. split; vm_compute; reflexivity.
  - intros (e & q & Hc). vm_compute in Hc. discriminate.
Qed.

Lemma C7_Close_returns_nil_after_send_witness :
  (exists q,
     pppoe.Close (D := pppoe_decls) open_engine_bad_link = Done None q /\
     pppoe.trace (pppoe.conn q) =
       pppoe.trace (pppoe.conn open_engine_bad_link)
         ++ [pppoe.EvWritePktTo [x11; xa7; x12; x34; x00; x00] 0x8863 ac_mac]) /\
  pppoe.Close (D := pppoe_decls)
    (pppoe.NewPPPoE (D := pppoe_decls) (scripted [] []) [])
  = Done None (pppoe.NewPPPoE (D := pppoe_decls) (scripted [] []) []).
Proof.
  split.
  - destruct (C7_Close_returns_nil_after_send (D := pppoe_decls)
                open_engine_bad_link) as (Hopen & _ & _).
    destruct (Hopen ltac:(reflexivity) [x11; xa7; x12; x34; x00; x00]
                ltac:(reflexivity)) as (_ & _ & q & Hc & _ & Htr).
    exists q. split; [exact Hc|exact Htr].
  - destruct (C7_Close_returns_nil_after_send (D := pppoe_decls)
                (pppoe.NewPPPoE (D := pppoe_decls) (scripted [] []) []))
      as (_ & _ & Hother).
    apply Hother. discriminate.
Defined.

(** C8, counterexample to the statement: [Dial] on the open session stores
    Dialing right after Open. *)
Lemma C8_second_Dial_leaves_Open :
  pppoe.stores (pppoe.final (pppoe.Dial (D := pppoe_decls) open_engine)) =
    [pppoe.pppoeStateDialing; pppoe.pppoeStateOpen;
     pppoe.pppoeStateDialing; pppoe.pppoeStateClosed] /\
  exists i,
    pppoe.stores (pppoe.final (pppoe.Dial (D := pppoe_decls) open_engine)) !! i
      = Some pppoe.pppoeStateOpen /\
    pppoe.stores (pppoe.final (pppoe.Dial (D := pppoe_decls) open_engine)) !! S i
      = Some pppoe.pppoeStateDialing.
Proof.
  split; [reflexivity|]. exists 1%nat. split; reflexivity.
Qed.

(** C9, the code at the failing input: with [WithTags] the PADI carries
    the tags given and nothing else, so with an empty tag list, or with a
    list of other tags, it has no service-name tag, and with a list that
    has two it has two.  The PADR built from the same engine has one. *)
Theorem C9_WithTags_drops_service_name :
  (forall c l,
     pppoe.Tags (pppoe.buildPADI (D := pppoe_decls)
                   (pppoe.NewPPPoE (D := pppoe_decls) c [pppoe.WithTags (Some l)]))
     = l) /\
  pppoe.count_type 0x0101
    (pppoe.Tags (pppoe.buildPADI (D := pppoe_decls)
       (pppoe.NewPPPoE (D := pppoe_decls) (scripted [] [])
          [pppoe.WithTags (Some [])]))) = 0%nat /\
  pppoe.count_type 0x0101
    (pppoe.Tags (pppoe.buildPADI (D := pppoe_decls)
       (pppoe.NewPPPoE (D := pppoe_decls) (scripted [] [])
          [pppoe.WithTags
             (Some [ {| pppoe.TagType := 0x0101; pppoe.Value := [] |};
                     {| pppoe.TagType := 0x0101; pppoe.Value := [x41] |} ])])))
    = 2%nat /\
  pppoe.count_type 0x0101
    (pppoe.Tags (pppoe.buildPADRWithPADO (D := pppoe_decls)
       (pppoe.NewPPPoE (D := pppoe_decls) (scripted [] [])
          [pppoe.WithTags (Some [])]) pado_pkt)) = 1%nat.
Proof.
  split; [intros c l; reflexivity|]. repeat split; reflexivity.
Qed.

(** * Further properties *)

(** ** Bytes *)

Lemma Z_of_byte_of_Z (v : Z) : Z_of_byte (byte_of_Z v) = v mod 256.
Proof.
  unfold Z_of_byte, byte_of_Z.
  pose proof (Z.mod_pos_bound v 256 ltac:(lia)) as Hb.
  destruct (Byte.of_N (Z.to_N (v mod 256))) as [b|] eqn:E; simpl.
  - apply Byte.to_of_N in E. rewrite E. lia.
  - apply Byte.of_N_None_iff in E. lia.
Qed.

Lemma Z_of_byte_range (b : byte) : 0 <= Z_of_byte b < 256.
Proof.
  unfold Z_of_byte. pose proof (Byte.to_N_bounded b). lia.
Qed.

Lemma Uint16_PutUint16 (v : Z) (rest : bytes) :
  0 <= v < 65536 -> binary.Uint16 (binary.PutUint16 v ++ rest) = v.
Proof.
  intros Hv. unfold binary.PutUint16. cbn [app binary.Uint16].
  rewrite !Z_of_byte_of_Z. change 256 with (2 ^ 8).
  apply Z.bits_inj'. intros n Hn.
  rewrite Z.lor_spec, Z.shiftl_spec by lia.
  destruct (Z.ltb_spec n 8) as [Hlt|Hge].
  - rewrite Z.mod_pow2_bits_low by lia.
    rewrite (Z.testbit_neg_r _ (n - 8)) by lia. apply orb_false_r.
  - rewrite Z.mod_pow2_bits_high by lia. cbn [orb].
    destruct (Z.ltb_spec n 16) as [Hlt|Hge'].
    + rewrite Z.mod_pow2_bits_low by lia. rewrite Z.shiftr_spec by lia.
      f_equal. lia.
    + rewrite Z.mod_pow2_bits_high by lia.
      rewrite <- (Z.mod_small v (2 ^ 16)) by lia.
      symmetry. apply Z.mod_pow2_bits_high. lia.
Qed.

(** ** The PPP frame codec and the registry *)

Section lcp_more.
Import lcp.
Context `{D : lcp.Decls}.

(** X1: a frame serialized from a protocol number below 65536 and a
    payload that serializes to [body] is the two bytes of the number and
    then [body]; [Parse] gives back the number and [body] when [body] is
    not empty, and refuses the frame when [body] is empty. *)
Theorem PPPPacket_Serialize_Parse {A : Type} `{Serializer A} (data : A)
  (proto : Z) (body : bytes) :
  0 <= proto < 65536 ->
  Serialize data = Ok body ->
  exists b,
    PPPPacket_Serialize (NewPPPPkt data proto) = Ok b /\
    length b = (2 + length body)%nat /\
    (body ≠ [] ->
       PPPPacket_Parse b =
         Ok {| Proto := proto; Payload := NewStaticSerializer body |}) /\
    (body = [] -> PPPPacket_Parse b = Err (ErrInvalidLength 2)).
Proof.
  intros Hp Hs. unfold PPPPacket_Serialize. cbn [NewPPPPkt Payload Proto].
  rewrite Hs. eexists. split; [done|]. split; [done|]. split.
  - intros Hne. unfold PPPPacket_Parse.
    rewrite decide_False by (destruct body; [done|simpl; lia]).
    do 2 f_equal. apply (Uint16_PutUint16 proto []). done.
  - intros ->. reflexivity.
Qed.

Lemma Register_Done (p : Z) (s : PPP) :
  relayChanListLock s = Unlocked ->
  Register p s =
    Done (sendChan s, Some (nextChan s))
      {| relayChanList := <[p := nextChan s]> (relayChanList s);
         sendChan := sendChan s;
         relayChanListLock := Unlocked;
         reqID := reqID s;
         chans := <[nextChan s :=
                      {| buf := []; closed := false; cap := relayChanDepth |}]>
                    (chans s);
         nextChan := S (nextChan s) |}.
Proof.
  intros Hl. unfold Register, mbind, M_bind, bind, make_chan, Lock, modify, gets.
  cbn. by rewrite Hl.
Qed.

Lemma relay_deliver (b : bytes) (s : PPP) (r : nat) (c : Chan) :
  (2 < length b)%nat ->
  relayChanListLock s ≠ WLocked ->
  relayChanList s !! binary.Uint16 (take 2 b) = Some r ->
  chans s !! r = Some c -> closed c = false ->
  (length (buf c) < cap c)%nat ->
  relay b s = Done [b] (set_chans (<[r := pushed c (drop 2 b)]> (chans s)) s).
Proof.
  intros Hlen Hw Hm Hc Ho Hl. unfold relay. rewrite decide_False by lia.
  unfold mbind, M_bind, bind, defer, gets, RLock.
  destruct s as [m sc l id h nx]. cbn in *.
  destruct l as [|n|]; [| |done]; cbn; rewrite Hm; cbn;
    rewrite Hc, Ho, decide_True by done; reflexivity.
Qed.

(** X2: frames of a registered protocol number that [relay] handles one
    after the other are put on the registered channel in that order, each
    without its two protocol bytes, as long as the channel has room. *)
Theorem relay_each_fifo (bs : list bytes) (p : Z) (s : PPP) (r : nat)
  (c : Chan) :
  relayChanListLock s ≠ WLocked ->
  relayChanList s !! p = Some r ->
  chans s !! r = Some c -> closed c = false ->
  Forall (fun b => (2 < length b)%nat /\ binary.Uint16 (take 2 b) = p) bs ->
  (length (buf c) + length bs <= cap c)%nat ->
  relay_each bs s =
    Done tt (set_chans
               (<[r := {| buf := buf c ++ map (drop 2) bs;
                          closed := false; cap := cap c |}]> (chans s)) s).
Proof.
  intros Hw Hm Hc Ho Hbs. revert s c Hw Hm Hc Ho.
  induction Hbs as [|b bs [Hlen Hp] _ IH]; intros s c Hw Hm Hc Ho Hcap.
  - cbn. rewrite app_nil_r. f_equal. destruct s as [m sc l id h nx]. cbn in *.
    f_equal. rewrite insert_id; [done|]. rewrite Hc. by destruct c; cbn in *; subst.
  - cbn [relay_each]. unfold mbind, M_bind, bind.
    rewrite (relay_deliver b s r c) by (cbn in Hcap; rewrite ?Hp; done || lia).
    rewrite (IH _ (pushed c (drop 2 b))); cbn; try done.
    + unfold set_chans, pushed. cbn. rewrite insert_insert_eq.
      rewrite <- app_assoc. done.
    + apply lookup_insert_eq.
    + rewrite length_app. cbn in *. lia.
Qed.

(** X3: a frame for a registered number whose channel is full leaves
    [relay] blocked with the registry read-locked, and in that state
    [Register] and [UnRegister], for any number, block too. *)
Theorem relay_full_blocks_registry (b : bytes) (s : PPP) (r : nat) (c : Chan) :
  (2 < length b)%nat ->
  relayChanListLock s ≠ WLocked ->
  relayChanList s !! binary.Uint16 (take 2 b) = Some r ->
  chans s !! r = Some c -> closed c = false ->
  (cap c <= length (buf c))%nat ->
  exists s',
    relay b s = Blocks s' /\
    relayChanListLock s' ≠ Unlocked /\
    chans s' = chans s /\ relayChanList s' = relayChanList s /\
    forall p,
      (exists s2, Register p s' = Blocks s2) /\
      (exists s2, UnRegister p s' = Blocks s2).
Proof.
  intros Hlen Hw Hm Hc Ho Hfull. unfold relay. rewrite decide_False by lia.
  unfold mbind, M_bind, bind, defer, gets, RLock.
  destruct s as [m sc l id h nx]. cbn in *.
  destruct l as [|n|]; [| |done]; cbn; rewrite Hm; cbn;
    unfold chan_send; cbn; rewrite Hc, Ho, decide_False by lia;
    (eexists; split; [done|]); cbn; repeat (split; [done|]);
    intros p; split; eexists; reflexivity.
Qed.

(** ** The registry never holds a closed channel *)

Lemma registry_ok_NewPPP : registry_ok NewPPP.
Proof.
  unfold NewPPP. split; [|split]; cbn [relayChanList sendChan nextChan chans].
  - intros p r Hp. by rewrite lookup_empty in Hp.
  - intros p1 p2 r Hp. by rewrite lookup_empty in Hp.
  - exists 0%nat, {| buf := []; closed := false; cap := sendCHanDepth |}.
    split; [done|]. split; [lia|]. split; [apply lookup_singleton_eq|].
    split; [done|]. intros p Hp. by rewrite lookup_empty in Hp.
Qed.

(** The shape depends on the open channels only, not on what they hold
    nor on the lock or the request id. *)
Lemma registry_ok_ext (s s' : PPP) :
  relayChanList s' = relayChanList s ->
  sendChan s' = sendChan s ->
  nextChan s' = nextChan s ->
  (forall r c, chans s !! r = Some c -> closed c = false ->
     exists c', chans s' !! r = Some c' /\ closed c' = false) ->
  registry_ok s -> registry_ok s'.
Proof.
  intros Hm Hs Hn Hc (H1 & H2 & q & c & Hq & Hlt & Hcq & Hoq & Hnq).
  split; [|split].
  - intros p r Hp. rewrite Hm in Hp. destruct (H1 p r Hp) as (Hr & c0 & Hc0 & Ho0).
    rewrite Hn. split; [done|]. by apply (Hc r c0).
  - intros p1 p2 r. rewrite Hm. apply H2.
  - destruct (Hc q c Hcq Hoq) as (c' & Hc' & Ho').
    exists q, c'. rewrite Hs, Hn, Hm. done.
Qed.

Lemma registry_ok_make_chan (s : PPP) (n : nat) :
  registry_ok s -> registry_ok (final (make_chan n s)).
Proof.
  intros (H1 & H2 & q & c & Hq & Hlt & Hcq & Hoq & Hnq).
  unfold make_chan. cbn [final]. split; [|split]; cbn.
  - intros p r Hp. destruct (H1 p r Hp) as (Hr & c0 & Hc0 & Ho0).
    split; [lia|]. exists c0. rewrite lookup_insert_ne by lia. done.
  - done.
  - exists q, c. rewrite lookup_insert_ne by lia. repeat split; try done. lia.
Qed.

Lemma registry_ok_Register (p : Z) (s : PPP) :
  registry_ok s ->
  match Register p s with
  | Panicked _ => False
  | o => registry_ok (final o)
  end.
Proof.
  intros Hok.
  assert (relayChanListLock s = Unlocked \/ relayChanListLock s ≠ Unlocked)
    as [Hl|Hl] by (destruct (relayChanListLock s); [by left|by right..]).
  - rewrite Register_Done by done. cbn [final].
    destruct Hok as (H1 & H2 & q & c & Hq & Hlt & Hcq & Hoq & Hnq).
    split; [|split]; cbn.
    + intros p' r. rewrite lookup_insert. case_decide as Hp.
      * intros [= <-]. split; [lia|]. eexists. by rewrite lookup_insert_eq.
      * intros Hp'. destruct (H1 p' r Hp') as (Hr & c0 & Hc0 & Ho0).
        split; [lia|]. exists c0. rewrite lookup_insert_ne by lia. done.
    + intros p1 p2 r. rewrite !lookup_insert.
      repeat case_decide; subst; try done.
      * intros [= <-] Hp2. destruct (H1 p2 _ Hp2). lia.
      * intros Hp1 [= <-]. destruct (H1 p1 _ Hp1). lia.
      * apply H2.
    + exists q, c. rewrite lookup_insert_ne by lia.
      repeat split; try done; [lia|].
      intros p'. rewrite lookup_insert. case_decide; [|done].
      intros [= Heq]. lia.
  - unfold Register, mbind, M_bind, bind.
    pose proof (registry_ok_make_chan s relayChanDepth Hok) as Hok'.
    destruct (make_chan relayChanDepth s) as [r s1| |] eqn:E; try done.
    assert (relayChanListLock s1 = relayChanListLock s) as Hl1.
    { unfold make_chan in E. by injection E as <- <-. }
    unfold Lock. rewrite Hl1. by destruct (relayChanListLock s).
Qed.

Lemma registry_ok_UnRegister (p : Z) (s : PPP) :
  registry_ok s ->
  match UnRegister p s with
  | Panicked _ => relayChanList s !! p = None
  | o => registry_ok (final o)
  end.
Proof.
  intros Hok. unfold UnRegister, mbind, M_bind, bind, Lock, gets.
  destruct (relayChanListLock s) eqn:Hl; try done. cbn.
  destruct (relayChanList s !! p) as [r|] eqn:Hp; [|done].
  pose proof Hok as (H1 & H2 & q & c & Hq & Hlt & Hcq & Hoq & Hnq).
  destruct (H1 p r Hp) as (Hr & c0 & Hc0 & Ho0).
  cbn. rewrite Hc0, Ho0. cbn.
  split; [|split]; cbn.
  - intros p' r'. rewrite lookup_delete. case_decide as Hpp; [done|].
    intros Hp'. destruct (H1 p' r' Hp') as (Hr' & c' & Hc' & Ho').
    split; [done|]. exists c'. rewrite lookup_insert_ne; [done|].
    intros ->. apply Hpp. by apply (H2 p p' r').
  - intros p1 p2 r'. rewrite !lookup_delete. repeat case_decide; try done.
    apply H2.
  - exists q, c. rewrite lookup_insert_ne by (intros ->; by apply (Hnq p)).
    repeat split; try done.
    intros p'. rewrite lookup_delete. case_decide; [done|]. apply Hnq.
Qed.

Lemma registry_ok_relay (b : bytes) (s : PPP) :
  registry_ok s ->
  match relay b s with
  | Panicked _ => False
  | o => registry_ok (final o)
  end.
Proof.
  intros Hok. unfold relay. case_decide; [done|].
  unfold mbind, M_bind, bind, defer, gets, RLock.
  pose proof Hok as (H1 & _).
  destruct s as [m sc l id h nx]. cbn [relayChanListLock relayChanList] in *.
  destruct l as [|n|]; [| |done]; cbn;
    (destruct (m !! binary.Uint16 (take 2 b)) as [r|] eqn:Hm; cbn;
     [destruct (H1 _ r Hm) as (_ & c & Hc & Ho); cbn in Hc; rewrite Hc, Ho;
      case_decide; cbn|]);
    (eapply registry_ok_ext; [| | | |exact Hok]; [done..|]); cbn;
    intros r' c' Hc' Ho'; rewrite ?lookup_insert; try case_decide; subst;
    eauto.
Qed.

Lemma registry_ok_sendProtocolRejct (b : bytes) (s : PPP) :
  registry_ok s ->
  match sendProtocolRejct b s with
  | Panicked _ => (length b < 2)%nat
  | o => registry_ok (final o)
  end.
Proof.
  intros Hok. unfold sendProtocolRejct. case_decide; [done|].
  case_bool_decide; [done|].
  unfold mbind, M_bind, bind, modify, gets. cbn.
  assert (registry_ok (set_reqID ((reqID s + 1) mod 256) s)) as Hid.
  { apply (registry_ok_ext s); try done. intros r c Hc Ho. by exists c. }
  destruct (PPPPacket_Serialize _) as [pktbytes|]; [|done].
  destruct Hok as (_ & _ & q & c & Hq & _ & Hcq & Hoq & _).
  cbn. rewrite Hq. cbn. rewrite Hcq, Hoq. case_decide; [|done]. cbn.
  apply (registry_ok_ext (set_reqID ((reqID s + 1) mod 256) s)); try done.
  intros r' c' Hc' Ho'. cbn. rewrite lookup_insert. case_decide.
  - by eexists.
  - by exists c'.
Qed.

(** What [relay] hands to the reject routine is the frame itself, and a
    frame of more than two bytes. *)
Lemma relay_spawns (b : bytes) (s s' : PPP) (l : list bytes) :
  relay b s = Done l s' -> l = [] \/ (l = [b] /\ (2 < length b)%nat).
Proof.
  unfold relay. case_decide as Hlen.
  - intros [= <- _]. by left.
  - unfold mbind, M_bind, bind, defer, gets.
    destruct (RLock s) as [[] s1| |]; [|done..]. cbn -[chan_send].
    destruct (relayChanList s1 !! binary.Uint16 (take 2 b)) as [r|];
      cbn -[chan_send].
    + destruct (chan_send (Some r) (drop 2 b) s1) as [[] s2| |]; [|done..].
      cbn. intros [= <- _]. right. split; [done|lia].
    + intros [= <- _]. right. split; [done|lia].
Qed.

Lemma registry_ok_dispatch (b : bytes) (s : PPP) :
  registry_ok s ->
  match dispatch b s with
  | Panicked _ => False
  | o => registry_ok (final o)
  end.
Proof.
  intros Hok. unfold dispatch, mbind, M_bind, bind.
  pose proof (registry_ok_relay b s Hok) as Hr.
  destruct (relay b s) as [l s1| |] eqn:E; [|done..]. cbn [final] in Hr.
  destruct (relay_spawns b s s1 l E) as [->|[-> Hlen]]; [done|].
  cbn [run_spawned]. unfold mbind, M_bind, bind.
  pose proof (registry_ok_sendProtocolRejct b s1 Hr) as Hj.
  destruct (sendProtocolRejct b s1) as [[] s2| |]; [done|lia|done].
Qed.

(** X4: on a multiplexer whose registry has the shape it has from
    [NewPPP] on, [Register], [UnRegister], [relay], [sendProtocolRejct]
    and the handling of a received frame, which is [relay] and then the
    reject routine it has started, keep that shape, whatever their
    outcome.  None of them sends on a closed channel or closes a channel
    twice: [Register], [relay] and the handling of a received frame never
    panic, [UnRegister] panics only for a number that is not registered,
    and [sendProtocolRejct] only when it is called with a frame of fewer
    than two bytes, which [relay] never hands to it. *)
Theorem registry_never_holds_closed_channel (s : PPP) :
  registry_ok s ->
  (forall p, match Register p s with
             | Panicked _ => False
             | o => registry_ok (final o)
             end) /\
  (forall p, match UnRegister p s with
             | Panicked _ => relayChanList s !! p = None
             | o => registry_ok (final o)
             end) /\
  (forall b, match relay b s with
             | Panicked _ => False
             | o => registry_ok (final o)
             end) /\
  (forall b, match sendProtocolRejct b s with
             | Panicked _ => (length b < 2)%nat
             | o => registry_ok (final o)
             end) /\
  (forall b, match dispatch b s with
             | Panicked _ => False
             | o => registry_ok (final o)
             end).
Proof.
  intros Hok. split; [|split; [|split; [|split]]].
  - intros p. by apply registry_ok_Register.
  - intros p. by apply registry_ok_UnRegister.
  - intros b. by apply registry_ok_relay.
  - intros b. by apply registry_ok_sendProtocolRejct.
  - intros b. by apply registry_ok_dispatch.
Qed.

(** ** Registering twice, unregistering, rejecting *)

(** X5: registering a number a second time makes a new channel and maps
    the number to it; the first channel is neither closed nor fed any
    more: a frame for the number goes to the second channel only. *)
Theorem Register_twice_orphans (p : Z) (b : bytes) (s : PPP) :
  relayChanListLock s = Unlocked ->
  (2 < length b)%nat -> binary.Uint16 (take 2 b) = p ->
  exists s1 s2 s3,
    Register p s = Done (sendChan s, Some (nextChan s)) s1 /\
    Register p s1 = Done (sendChan s, Some (S (nextChan s))) s2 /\
    relayChanList s2 !! p = Some (S (nextChan s)) /\
    relay b s2 = Done [b] s3 /\
    chans s3 !! nextChan s =
      Some {| buf := []; closed := false; cap := relayChanDepth |} /\
    chans s3 !! S (nextChan s) =
      Some {| buf := [drop 2 b]; closed := false; cap := relayChanDepth |}.
Proof.
  intros Hl Hlen Hp. do 3 eexists.
  split; [by apply Register_Done|].
  split; [by rewrite Register_Done|]. cbn.
  split; [apply lookup_insert_eq|]. split.
  - apply (relay_deliver b _ (S (nextChan s))
             {| buf := []; closed := false; cap := relayChanDepth |});
      try done; cbn.
    + rewrite Hp. apply lookup_insert_eq.
    + apply lookup_insert_eq.
    + unfold relayChanDepth. lia.
  - cbn. split.
    + rewrite !lookup_insert_ne by lia. apply lookup_insert_eq.
    + apply lookup_insert_eq.
Qed.

(** X6: [Register p] followed by [UnRegister p] returns; the channel that
    was handed out is closed, the number is no longer mapped, the other
    numbers are mapped as before, the lock is free, and a frame for [p]
    that arrives afterwards reaches no channel. *)
Theorem Register_UnRegister (p : Z) (b : bytes) (s : PPP) :
  relayChanListLock s = Unlocked ->
  (2 < length b)%nat -> binary.Uint16 (take 2 b) = p ->
  exists s1 s2,
    Register p s = Done (sendChan s, Some (nextChan s)) s1 /\
    UnRegister p s1 = Done tt s2 /\
    relayChanList s2 = delete p (relayChanList s) /\
    chans s2 !! nextChan s =
      Some {| buf := []; closed := true; cap := relayChanDepth |} /\
    relayChanListLock s2 = Unlocked /\
    relay b s2 = Done [b] s2.
Proof.
  intros Hl Hlen Hp. do 2 eexists.
  split; [by apply Register_Done|]. split.
  - apply (UnRegister_registered p _ (nextChan s)
             {| buf := []; closed := false; cap := relayChanDepth |});
      [done|apply lookup_insert_eq|apply lookup_insert_eq|done].
  - cbn. split; [apply delete_insert_eq|].
    split; [apply lookup_insert_eq|]. split; [done|].
    unfold relay. rewrite decide_False by lia.
    unfold mbind, M_bind, bind, defer, gets, RLock. cbn.
    rewrite Hp, delete_insert_eq, lookup_delete_eq. reflexivity.
Qed.


(** X8: a frame of an unknown protocol number for which a channel is
    registered is both handed to that channel and answered with a
    Protocol-Reject on the send channel. *)
Theorem dispatch_delivers_and_rejects (b : bytes) (s : PPP) (r q : nat)
  (c cq : Chan) (body : bytes) :
  (2 < length b)%nat ->
  relayChanListLock s ≠ WLocked ->
  relayChanList s !! binary.Uint16 (take 2 b) = Some r ->
  chans s !! r = Some c -> closed c = false ->
  (length (buf c) < cap c)%nat ->
  sendChan s = Some q -> r ≠ q ->
  chans s !! q = Some cq -> closed cq = false ->
  (length (buf cq) < cap cq)%nat ->
  binary.Uint16 (take 2 b) ∉ known_protocols ->
  Pkt_Serialize (reject_pkt ((reqID s + 1) mod 256) b) = Ok body ->
  exists s',
    dispatch b s = Done tt s' /\
    chans s' !! r = Some (pushed c (drop 2 b)) /\
    chans s' !! q = Some (pushed cq (binary.PutUint16 ProtoLCP ++ body)).
Proof.
  intros Hlen Hw Hm Hc Ho Hl Hs Hrq Hcq Hoq Hlq Hk Hb.
  unfold dispatch, mbind, M_bind, bind.
  rewrite (relay_deliver b s r c) by done. cbn [run_spawned].
  unfold mbind, M_bind, bind.
  rewrite (sendProtocolRejct_unknown b _ q cq body); try done; [|lia|].
  - eexists. split; [done|]. cbn.
    split.
    + rewrite lookup_insert_ne by done. apply lookup_insert_eq.
    + apply lookup_insert_eq.
  - cbn. by rewrite lookup_insert_ne.
Qed.

(** ** The send loop *)

Lemma send_drains {C E : Type} `{PacketConn C E}
  (fs rest : list bytes) (s : PPP) (c : C) (q : nat) (ch : Chan) :
  sendChan s = Some q ->
  chans s !! q = Some ch ->
  buf ch = fs ++ rest ->
  send (length fs) s c =
    Done (WriteTo_all fs c).1
      (set_chans
         (<[q := {| buf := rest; closed := closed ch; cap := cap ch |}]>
            (chans s)) s,
       (WriteTo_all fs c).2) /\
  (rest = [] -> closed ch = false ->
     exists st, send (S (length fs)) s c = Blocks st /\
                st.2 = (WriteTo_all fs c).2).
Proof.
  revert s c ch. induction fs as [|f fs IH]; intros s c ch Hq Hc Hb.
  - cbn in *. split.
    + do 2 f_equal. destruct s as [m sc l id h nx]. cbn in *. f_equal.
      rewrite insert_id; [done|]. rewrite Hc. f_equal.
      by destruct ch; cbn in *; subst.
    + intros -> Ho. unfold chan_recv. rewrite Hq, Hc, Hb, Ho. by eexists.
  - assert (chan_recv (sendChan s) s =
            Done f (set_chans
                      (<[q := {| buf := fs ++ rest; closed := closed ch;
                                 cap := cap ch |}]> (chans s)) s)) as Hr.
    { unfold chan_recv. by rewrite Hq, Hc, Hb. }
    set (s1 := set_chans _ s) in Hr.
    destruct (IH s1 (conn_WriteTo f c).2
                {| buf := fs ++ rest; closed := closed ch; cap := cap ch |})
      as [IH1 IH2]; [done|apply lookup_insert_eq|done|].
    split.
    + cbn [send length WriteTo_all]. rewrite Hr.
      destruct (conn_WriteTo f c) as [[n err] c'] eqn:Ew. cbn [snd] in IH1.
      rewrite IH1. destruct (WriteTo_all fs c') as [log c'']. cbn.
      subst s1. unfold set_chans. cbn. by rewrite insert_insert_eq.
    + intros Hrest Ho. destruct (IH2 Hrest Ho) as (st & Hst & Hst2).
      change (send (S (length (f :: fs))) s c)
        with (match chan_recv (sendChan s) s with
              | Done b s' =>
                let '((_, err), c') := conn_WriteTo b c in
                match send (S (length fs)) s' c' with
                | Done log st => Done (option_list err ++ log) st
                | Panicked st => Panicked st
                | Blocks st => Blocks st
                end
              | Panicked s' => Panicked (s', c)
              | Blocks s' => Blocks (s', c)
              end).
      rewrite Hr. cbn [WriteTo_all].
      destruct (conn_WriteTo f c) as [[n err] c'] eqn:Ew. cbn [snd] in Hst, Hst2.
      rewrite Hst. exists st. split; [done|].
      rewrite Hst2. by destruct (WriteTo_all fs c').
Qed.

(** X9: the send loop takes the queued frames from the send channel one
    by one, in their order, and writes each one once; a failed write is
    logged and neither stops the loop nor puts the frame back.  With
    fewer frames queued than rounds it ends up waiting on the channel. *)
Theorem send_drains_in_order {C E : Type} `{PacketConn C E}
  (fs rest : list bytes) (s : PPP) (c : C) (q : nat) (ch : Chan) :
  sendChan s = Some q ->
  chans s !! q = Some ch ->
  buf ch = fs ++ rest ->
  send (length fs) s c =
    Done (WriteTo_all fs c).1
      (set_chans
         (<[q := {| buf := rest; closed := closed ch; cap := cap ch |}]>
            (chans s)) s,
       (WriteTo_all fs c).2) /\
  (rest = [] -> closed ch = false ->
     exists st, send (S (length fs)) s c = Blocks st /\
                st.2 = (WriteTo_all fs c).2).
Proof. apply send_drains. Qed.

End lcp_more.

(** ** The discovery exchange against a script *)

Section pppoe_more.
Import pppoe.
Context `{D : pppoe.Decls}.

Lemma after_attempts_add (a b : nat) (pktbytes : bytes) (dst : HardwareAddr)
  (tmo : Z) (c : EtherConn) :
  after_attempts a pktbytes dst tmo (after_attempts b pktbytes dst tmo c) =
  after_attempts (b + a) pktbytes dst tmo c.
Proof.
  unfold after_attempts; cbn. f_equal; try lia.
  by rewrite replicate_add, concat_app, app_assoc.
Qed.

(** Attempts that bring nothing are gone through one by one. *)
Lemma loop_skip (k n : nat) (pktbytes : bytes) (code : Z)
  (dst : HardwareAddr) (tmo : Z) (c : EtherConn) :
  quiet c k code = true ->
  getResponse_loop (k + n) pktbytes code dst tmo c =
  getResponse_loop n pktbytes code dst tmo (after_attempts k pktbytes dst tmo c).
Proof.
  rewrite quiet_spec. revert c. induction k as [|k IH]; intros c Hq.
  - by rewrite after_attempts_0.
  - destruct (Hq 0%nat ltac:(lia)) as [Ht0 Hn0].
    rewrite Nat.add_0_r in Ht0, Hn0.
    change (S k + n)%nat with (S (k + n)).
    rewrite loop_step by done. cbn zeta. unfold no_match in Hn0.
    destruct (hard_error (rr_err (rx c (nrx c)))); [done|].
    rewrite <- (after_attempts_S k).
    assert (getResponse_loop (k + n) pktbytes code dst tmo
              (after_attempts 1 pktbytes dst tmo c) =
            getResponse_loop n pktbytes code dst tmo
              (after_attempts k pktbytes dst tmo
                 (after_attempts 1 pktbytes dst tmo c))) as Hrec.
    { apply IH. intros i Hi. cbn.
      rewrite <- (Nat.add_assoc (ntx c)), <- (Nat.add_assoc (nrx c)).
      apply Hq. lia. }
    destruct (Packet_Parse (rr_buf (rx c (nrx c)))) as [resp0|e]; [|done].
    apply bool_decide_eq_true in Hn0. by rewrite decide_False.
Qed.

Lemma getResponse_match (pppoe : PPPoE) (req resp : Packet)
  (code : Z) (dst hw : HardwareAddr) (pktbytes : bytes) (k : nat) :
  Packet_Serialize req = Ok pktbytes ->
  (k < Z.to_nat (retry pppoe))%nat ->
  quiet (conn pppoe) k code = true ->
  tx (conn pppoe) (ntx (conn pppoe) + k)%nat = None ->
  hard_error (rr_err (rx (conn pppoe) (nrx (conn pppoe) + k)%nat)) = None ->
  Packet_Parse (rr_buf (rx (conn pppoe) (nrx (conn pppoe) + k)%nat)) = Ok resp ->
  Code resp = code ->
  rr_l2ep (rx (conn pppoe) (nrx (conn pppoe) + k)%nat) = Some hw ->
  getResponse pppoe req code dst =
    Done (Ok (resp, hw))
      (set_conn (after_attempts (S k) pktbytes dst (timeout pppoe) (conn pppoe))
         pppoe).
Proof.
  intros Hs Hk Hq Ht Hh Hp Hc Hl. unfold getResponse. rewrite Hs.
  by rewrite (loop_match k _ pktbytes code dst _ _ resp hw).
Qed.

(** X10: in [getResponse] a timeout, a frame that does not parse and a
    packet of another code each use up one attempt; the first packet of
    the awaited code that comes within [retry] attempts is returned with
    its sender, after one write per attempt made. *)
Theorem getResponse_returns_first_match (pppoe : PPPoE) (req resp : Packet)
  (code : Z) (dst hw : HardwareAddr) (pktbytes : bytes) (k : nat) :
  Packet_Serialize req = Ok pktbytes ->
  (k < Z.to_nat (retry pppoe))%nat ->
  quiet (conn pppoe) k code = true ->
  tx (conn pppoe) (ntx (conn pppoe) + k)%nat = None ->
  hard_error (rr_err (rx (conn pppoe) (nrx (conn pppoe) + k)%nat)) = None ->
  Packet_Parse (rr_buf (rx (conn pppoe) (nrx (conn pppoe) + k)%nat)) = Ok resp ->
  Code resp = code ->
  rr_l2ep (rx (conn pppoe) (nrx (conn pppoe) + k)%nat) = Some hw ->
  getResponse pppoe req code dst =
    Done (Ok (resp, hw))
      (set_conn (after_attempts (S k) pktbytes dst (timeout pppoe) (conn pppoe))
         pppoe).
Proof.
  intros Hs Hk Hq Ht Hh Hp Hc Hl.
  by apply (getResponse_match pppoe req resp code dst hw pktbytes k).
Qed.

(** X11: an error of the connection ends [getResponse] at once, without
    further attempts: a failed write is returned as it is, before any
    read of that attempt; a read error other than a timeout is returned
    wrapped.  The attempts before it brought nothing. *)
Theorem getResponse_transport_error (pppoe : PPPoE) (req : Packet)
  (code : Z) (dst : HardwareAddr) (pktbytes : bytes) (k : nat) (e : error) :
  Packet_Serialize req = Ok pktbytes ->
  (k < Z.to_nat (retry pppoe))%nat ->
  quiet (conn pppoe) k code = true ->
  (tx (conn pppoe) (ntx (conn pppoe) + k)%nat = Some e ->
     getResponse pppoe req code dst =
       Done (Err e)
         (set_conn
            (WritePktTo pktbytes EtherTypePPPoEDiscovery dst
               (after_attempts k pktbytes dst (timeout pppoe) (conn pppoe))).2
            pppoe)) /\
  (tx (conn pppoe) (ntx (conn pppoe) + k)%nat = None ->
   hard_error (rr_err (rx (conn pppoe) (nrx (conn pppoe) + k)%nat)) = Some e ->
     getResponse pppoe req code dst =
       Done (Err (ErrRecvResponse e))
         (set_conn
            (after_attempts (S k) pktbytes dst (timeout pppoe) (conn pppoe))
            pppoe)).
Proof.
  intros Hs Hk Hq. unfold getResponse. rewrite Hs.
  replace (Z.to_nat (retry pppoe))
    with (k + S (Z.to_nat (retry pppoe) - S k))%nat by lia.
  rewrite loop_skip by done. split.
  - intros Ht. cbn [getResponse_loop].
    assert (tx (after_attempts k pktbytes dst (timeout pppoe) (conn pppoe))
               (ntx (after_attempts k pktbytes dst (timeout pppoe)
                       (conn pppoe))) = Some e) as Ht' by done.
    unfold WritePktTo at 1. rewrite Ht'. done.
  - intros Ht Hh. rewrite loop_step by done. cbn zeta.
    cbn [rx nrx after_attempts]. rewrite Hh.
    rewrite after_attempts_add. by rewrite Nat.add_1_r.
Qed.

(** X12: a full handshake against a script.  The PADI is broadcast once
    per attempt until the PADO comes; the PADR, built from that PADO, then
    goes to the PADO's sender only, once per attempt until the PADS comes.
    [Dial] ends Open with the session id of the PADS if that id is not 0,
    and Closed with the rejection error if it is 0; either way the peer
    address is the PADO's sender, whoever sent the PADS. *)
Theorem Dial_handshake (pppoe : PPPoE) (pado pads : Packet)
  (hw hw2 : HardwareAddr) (padi padr : bytes) (k1 k2 : nat) :
  let p0 := StoreState pppoeStateDialing pppoe in
  let n := Z.to_nat (retry pppoe) in
  let c1 := after_attempts (S k1) padi BroadCastMAC (timeout pppoe)
              (conn pppoe) in
  let c2 := after_attempts (S k2) padr hw (timeout pppoe) c1 in
  Packet_Serialize (buildPADI p0) = Ok padi ->
  (k1 < n)%nat -> answers (conn pppoe) k1 CodePADO pado hw ->
  Packet_Serialize (buildPADRWithPADO (set_acMAC hw (set_conn c1 p0)) pado)
    = Ok padr ->
  (k2 < n)%nat -> answers c1 k2 CodePADS pads hw2 ->
  exists p',
    conn p' = c2 /\ acMAC p' = hw /\
    (SessionID pads ≠ 0 ->
       Dial pppoe = Done None p' /\ state p' = pppoeStateOpen /\
       sessionID p' = SessionID pads) /\
    (SessionID pads = 0 ->
       Dial pppoe = Done (Some (ErrRejected pads)) p' /\
       state p' = pppoeStateClosed /\ sessionID p' = sessionID pppoe).
Proof.
  intros p0 n c1 c2 Hs1 Hk1 (Hq1 & Ht1 & Hh1 & Hp1 & Hc1 & Hl1)
         Hs2 Hk2 (Hq2 & Ht2 & Hh2 & Hp2 & Hc2 & Hl2).
  exists (final (Dial pppoe)).
  unfold Dial, Dial_body. fold p0.
  rewrite (getResponse_match p0 _ pado _ _ hw padi k1) by done.
  cbn [acMAC set_acMAC]. fold c1.
  rewrite (getResponse_match _ _ pads _ _ hw2 padr k2) by done.
  cbn [conn set_conn set_acMAC timeout]. fold c2.
  destruct (decide (SessionID pads = 0)) as [Hz|Hnz];
    unfold Dial_deferred; cbn;
    [rewrite decide_True by done|rewrite decide_False by naive_solver];
    cbn; repeat split; done.
Qed.

(** X13: [Dial] returns the error of either exchange as it is and ends
    Closed.  After a failed first exchange the peer address is nil, even
    if an earlier [Dial] had captured one; after a failed second exchange
    it is the PADO's sender.  The session id is not touched. *)
Theorem Dial_failure (pppoe : PPPoE) :
  let p0 := StoreState pppoeStateDialing pppoe in
  (forall e p1,
     getResponse p0 (buildPADI p0) CodePADO BroadCastMAC = Done (Err e) p1 ->
     exists p',
       Dial pppoe = Done (Some e) p' /\ state p' = pppoeStateClosed /\
       acMAC p' = [] /\ sessionID p' = sessionID pppoe /\
       conn p' = conn p1) /\
  (forall pado hw p1 e p2,
     getResponse p0 (buildPADI p0) CodePADO BroadCastMAC
       = Done (Ok (pado, hw)) p1 ->
     getResponse (set_acMAC hw p1) (buildPADRWithPADO (set_acMAC hw p1) pado)
       CodePADS hw = Done (Err e) p2 ->
     exists p',
       Dial pppoe = Done (Some e) p' /\ state p' = pppoeStateClosed /\
       acMAC p' = hw /\ sessionID p' = sessionID pppoe /\
       conn p' = conn p2).
Proof.
  intros p0. split.
  - intros e p1 H1. unfold Dial, Dial_body. fold p0. rewrite H1.
    apply getResponse_Done_inv in H1.
    eexists. split; [done|]. unfold Dial_deferred. rewrite H1. cbn.
    rewrite decide_True by done. done.
  - intros pado hw p1 e p2 H1 H2. unfold Dial, Dial_body. fold p0.
    rewrite H1. cbn [acMAC set_acMAC]. rewrite H2.
    apply getResponse_Done_inv in H1, H2.
    eexists. split; [done|]. unfold Dial_deferred. rewrite H2, H1. cbn.
    rewrite decide_True by done. done.
Qed.

(** ** ReadFrom *)

Lemma after_reads_0 (c : EtherConn) : after_reads 0 c = c.
Proof.
  unfold after_reads. destruct c; cbn. by rewrite Nat.add_0_r, app_nil_r.
Qed.

Lemma after_reads_S (n : nat) (c : EtherConn) :
  after_reads n (after_reads 1 c) = after_reads (S n) c.
Proof.
  unfold after_reads; cbn. f_equal; [lia|]. by rewrite <- app_assoc.
Qed.

Lemma after_reads_add (a b : nat) (c : EtherConn) :
  after_reads a (after_reads b c) = after_reads (b + a) c.
Proof.
  unfold after_reads; cbn. f_equal; [lia|].
  by rewrite replicate_add, app_assoc.
Qed.

Lemma ReadPktFrom_eq (buf : bytes) (c : EtherConn) :
  ReadPktFrom buf c =
    let rr := rx c (nrx c) in
    let data := take (length buf) (rr_buf rr) in
    ((Z.of_nat (length data), data ++ drop (length data) buf,
      rr_l2ep rr, rr_err rr), after_reads 1 c).
Proof.
  unfold ReadPktFrom, after_reads. cbn. do 2 f_equal. lia.
Qed.

Lemma read_buffer_length (buf frame : bytes) :
  length (take (length buf) frame
            ++ drop (length (take (length buf) frame)) buf) = length buf.
Proof. rewrite length_app, length_drop, length_take. lia. Qed.

Lemma read_buffer_code (data rest : bytes) :
  (6 <= length data)%nat -> (data ++ rest) !! 1%nat = data !! 1%nat.
Proof. intros Hl. apply lookup_app_l. lia. Qed.

Lemma read_buffer_sid (data rest : bytes) :
  (6 <= length data)%nat ->
  take 2 (drop 2 (data ++ rest)) = take 2 (drop 2 data).
Proof.
  intros Hl. rewrite drop_app_le by lia.
  rewrite take_app_le; [done|]. rewrite length_drop. lia.
Qed.

(** One round of the loop on a frame that is not taken. *)
Lemma ReadFrom_loop_skip (fuel : nat) (buf : bytes) (pppoe : PPPoE) :
  let rr := rx (conn pppoe) (nrx (conn pppoe)) in
  let data := take (length buf) (rr_buf rr) in
  skipped pppoe (length buf) rr = true ->
  ReadFrom_loop (S fuel) buf pppoe =
    ReadFrom_loop fuel (data ++ drop (length data) buf)
      (set_conn (after_reads 1 (conn pppoe)) pppoe).
Proof.
  intros rr data Hsk. cbn [ReadFrom_loop]. rewrite ReadPktFrom_eq.
  cbn zeta. fold rr. fold data.
  unfold skipped in Hsk. fold data in Hsk.
  apply andb_prop in Hsk as [He Hsk]. apply bool_decide_eq_true in He.
  rewrite He. cbn [acMAC set_conn sessionID].
  destruct (decide (Z.of_nat (length data) < 6)) as [|Hn]; [done|].
  apply orb_prop in Hsk as [Hsk|Hsk];
    [apply bool_decide_eq_true in Hsk; lia|].
  destruct (rr_l2ep rr) as [hw|]; [|done].
  destruct (decide (hw ≠ acMAC pppoe)) as [|Hhw]; [done|].
  rewrite read_buffer_code by lia.
  destruct (data !! 1%nat) as [b1|] eqn:Hb1;
    [|apply lookup_ge_None in Hb1; lia].
  cbn in Hsk.
  destruct (decide (Z_of_byte b1 ≠ CodeSession)) as [|Hcode]; [done|].
  rewrite decide_False
    by (rewrite length_app, length_drop; subst data;
        rewrite length_take in *; lia).
  rewrite read_buffer_sid by lia.
  destruct (decide (binary.Uint16 (take 2 (drop 2 data)) ≠ sessionID pppoe))
    as [|Hsid]; [done|].
  exfalso. apply orb_prop in Hsk as [Hsk|Hsk].
  - apply orb_prop in Hsk as [Hsk|Hsk]; apply bool_decide_eq_true in Hsk.
    + done.
    + apply Hsk. f_equal. by apply dec_stable.
  - apply bool_decide_eq_true in Hsk. done.
Qed.

(** One round of the loop on a frame that is taken. *)
Lemma ReadFrom_loop_take (fuel : nat) (buf : bytes) (pppoe : PPPoE) :
  let rr := rx (conn pppoe) (nrx (conn pppoe)) in
  let data := take (length buf) (rr_buf rr) in
  let filled := data ++ drop (length data) buf in
  taken pppoe (length buf) rr = true ->
  ReadFrom_loop (S fuel) buf pppoe =
    Some (Done (Z.of_nat (length data) - 6,
                Some (newRemotePPPoEP pppoe (acMAC pppoe)), None)
            (set_conn (after_reads 1 (conn pppoe)) pppoe),
          drop 6 filled ++ drop (length filled - 6) filled).
Proof.
  intros rr data filled Htk. cbn [ReadFrom_loop]. rewrite ReadPktFrom_eq.
  cbn zeta. fold rr. fold data. subst filled.
  unfold taken in Htk. fold data in Htk.
  repeat (apply andb_prop in Htk as [Htk ?]).
  repeat match goal with
         | H : bool_decide _ = true |- _ => apply bool_decide_eq_true in H
         end.
  rewrite Htk. cbn [acMAC set_conn sessionID].
  rewrite decide_False by lia.
  match goal with H : rr_l2ep rr = _ |- _ => rewrite H end.
  rewrite decide_False by naive_solver.
  rewrite read_buffer_code by lia.
  destruct (data !! 1%nat) as [b1|] eqn:Hb1; [|done].
  match goal with H : _ <$> _ = _ |- _ => cbn in H; injection H as Hcode end.
  rewrite decide_False by naive_solver.
  assert (length (data ++ drop (length data) buf) = length buf) as Hlen
    by apply read_buffer_length.
  assert (length data <= length buf)%nat
    by (subst data; rewrite length_take; lia).
  rewrite decide_False by lia.
  rewrite read_buffer_sid by lia.
  rewrite decide_False by naive_solver.
  rewrite decide_False by lia. done.
Qed.

(** One round of the loop on a read that fails. *)
Lemma ReadFrom_loop_error (fuel : nat) (buf : bytes) (pppoe : PPPoE)
  (e : error) :
  let rr := rx (conn pppoe) (nrx (conn pppoe)) in
  let data := take (length buf) (rr_buf rr) in
  rr_err rr = Some e ->
  ReadFrom_loop (S fuel) buf pppoe =
    Some (Done (0, None, Some (ErrFailedRecv e))
            (set_conn (after_reads 1 (conn pppoe)) pppoe),
          data ++ drop (length data) buf).
Proof.
  intros rr data He. cbn [ReadFrom_loop]. rewrite ReadPktFrom_eq.
  cbn zeta. fold rr. by rewrite He.
Qed.

(** One round of the loop on a frame of six bytes or more without a
    sender. *)
Lemma ReadFrom_loop_no_sender (fuel : nat) (buf : bytes) (pppoe : PPPoE) :
  let rr := rx (conn pppoe) (nrx (conn pppoe)) in
  let data := take (length buf) (rr_buf rr) in
  rr_err rr = None -> (6 <= length data)%nat -> rr_l2ep rr = None ->
  exists q out, ReadFrom_loop (S fuel) buf pppoe = Some (Panicked q, out).
Proof.
  intros rr data He Hl Hn. cbn [ReadFrom_loop]. rewrite ReadPktFrom_eq.
  cbn zeta. fold rr. fold data. rewrite He, Hn.
  rewrite decide_False by lia. by do 2 eexists.
Qed.

Lemma read_classify (pppoe : PPPoE) (len : nat) (rr : ReadResult) :
  rr_err rr = None ->
  skipped pppoe len rr = true \/ taken pppoe len rr = true \/
  ((6 <= length (take len (rr_buf rr)))%nat /\ rr_l2ep rr = None).
Proof.
  intros He. unfold skipped, taken. rewrite He.
  rewrite (bool_decide_eq_true_2 (None = None)) by done. cbn [andb].
  set (data := take len (rr_buf rr)).
  destruct (decide (length data < 6)%nat) as [Hs|Hs].
  { left. by rewrite (bool_decide_eq_true_2 _ Hs). }
  rewrite (bool_decide_eq_false_2 _ Hs). cbn [orb].
  rewrite (bool_decide_eq_true_2 (6 <= length data)%nat) by lia. cbn [andb].
  destruct (rr_l2ep rr) as [hw|]; [|right; right; split; [lia|done]].
  destruct (decide (hw = acMAC pppoe)) as [->|Hhw].
  2:{ left. rewrite (bool_decide_eq_true_2 _ Hhw). done. }
  rewrite (bool_decide_eq_false_2 (acMAC pppoe ≠ acMAC pppoe)) by naive_solver.
  rewrite (bool_decide_eq_true_2 (Some (acMAC pppoe) = Some (acMAC pppoe)))
    by done.
  cbn [orb andb].
  destruct (decide (Z_of_byte <$> data !! 1%nat = Some CodeSession))
    as [Hc|Hc].
  2:{ left. rewrite (bool_decide_eq_true_2 _ Hc). done. }
  rewrite (bool_decide_eq_true_2 _ Hc).
  rewrite (bool_decide_eq_false_2
             (Z_of_byte <$> data !! 1%nat ≠ Some CodeSession))
    by naive_solver.
  cbn [orb andb].
  destruct (decide (binary.Uint16 (take 2 (drop 2 data)) = sessionID pppoe))
    as [Hsid|Hsid].
  - right; left. by rewrite (bool_decide_eq_true_2 _ Hsid).
  - left. by rewrite (bool_decide_eq_true_2 _ Hsid).
Qed.

Lemma ReadFrom_loop_first_match (k fuel : nat) (buf : bytes) (pppoe : PPPoE) :
  (k < fuel)%nat ->
  (forall i, (i < k)%nat ->
     skipped pppoe (length buf)
       (rx (conn pppoe) (nrx (conn pppoe) + i)%nat) = true) ->
  taken pppoe (length buf) (rx (conn pppoe) (nrx (conn pppoe) + k)%nat)
    = true ->
  let data :=
    take (length buf) (rr_buf (rx (conn pppoe) (nrx (conn pppoe) + k)%nat)) in
  exists out,
    ReadFrom_loop fuel buf pppoe =
      Some (Done (Z.of_nat (length data) - 6,
                  Some (newRemotePPPoEP pppoe (acMAC pppoe)), None)
              (set_conn (after_reads (S k) (conn pppoe)) pppoe), out) /\
    length out = length buf /\
    take (length data - 6) out = drop 6 data.
Proof.
  revert fuel buf pppoe.
  induction k as [|k IH]; intros fuel buf pppoe Hk Hsk Htk data.
  - destruct fuel as [|fuel]; [lia|]. subst data.
    rewrite Nat.add_0_r in *. rewrite ReadFrom_loop_take by done.
    cbn zeta. eexists. split; [done|].
    set (data := take (length buf) _).
    assert (6 <= length data)%nat as Hd.
    { unfold taken in Htk. fold data in Htk.
      repeat (apply andb_prop in Htk as [Htk ?]).
      match goal with
      | H : bool_decide (6 <= _)%nat = true |- _ =>
        by apply bool_decide_eq_true in H
      end. }
    assert (length data <= length buf)%nat
      by (subst data; rewrite length_take; lia).
    split.
    + rewrite !length_app, !length_drop, !length_app, !length_drop. lia.
    + rewrite drop_app_le by lia. rewrite <- app_assoc.
      rewrite take_app_length'; [done|]. rewrite length_drop. lia.
  - destruct fuel as [|fuel]; [lia|].
    pose proof (Hsk 0%nat ltac:(lia)) as Hs0. rewrite Nat.add_0_r in Hs0.
    rewrite ReadFrom_loop_skip by done.
    set (buf1 := _ ++ drop _ buf).
    assert (length buf1 = length buf) as Hlen by apply read_buffer_length.
    destruct (IH fuel buf1 (set_conn (after_reads 1 (conn pppoe)) pppoe))
      as (out & Hout & Hl & Ht).
    + lia.
    + intros i Hi. rewrite Hlen. cbn [conn set_conn after_reads rx nrx].
      rewrite <- Nat.add_assoc. apply (Hsk (S i)). lia.
    + rewrite Hlen. cbn [conn set_conn after_reads rx nrx].
      rewrite <- Nat.add_assoc. exact Htk.
    + exists out. rewrite Hout. cbn [conn set_conn after_reads rx nrx] in *.
      rewrite Hlen in *. rewrite <- Nat.add_assoc in Ht.
      split; [|split; [done|exact Ht]].
      rewrite <- Nat.add_assoc. do 3 f_equal.
      rewrite <- (after_reads_S (S k)). by destruct pppoe.
Qed.

(** X14: once Open, [ReadFrom] goes past every frame that is too short,
    comes from another address than the peer's, is not a session packet or
    carries another session id, and returns on the first frame that
    passes: the count is the frame's length less the six header bytes, the
    address is the peer's with the session id, and the caller's buffer
    begins with the frame's bytes after the header. *)
Theorem ReadFrom_takes_first_match (k fuel : nat) (buf : bytes)
  (pppoe : PPPoE) :
  state pppoe = pppoeStateOpen ->
  (k < fuel)%nat ->
  (forall i, (i < k)%nat ->
     skipped pppoe (length buf)
       (rx (conn pppoe) (nrx (conn pppoe) + i)%nat) = true) ->
  taken pppoe (length buf) (rx (conn pppoe) (nrx (conn pppoe) + k)%nat)
    = true ->
  let data :=
    take (length buf) (rr_buf (rx (conn pppoe) (nrx (conn pppoe) + k)%nat)) in
  exists out,
    ReadFrom fuel buf pppoe =
      Some (Done (Z.of_nat (length data) - 6,
                  Some {| L2EP := {| HwAddr := acMAC pppoe |};
                          EpSessionID := sessionID pppoe |}, None)
              (set_conn (after_reads (S k) (conn pppoe)) pppoe), out) /\
    length out = length buf /\
    take (length data - 6) out = drop 6 data.
Proof.
  intros Hst Hk Hsk Htk data. unfold ReadFrom.
  rewrite decide_False by naive_solver.
  by apply ReadFrom_loop_first_match.
Qed.

Lemma ReadFrom_loop_skips (k fuel : nat) (buf : bytes) (pppoe : PPPoE) :
  (forall i, (i < k)%nat ->
     skipped pppoe (length buf)
       (rx (conn pppoe) (nrx (conn pppoe) + i)%nat) = true) ->
  exists buf',
    length buf' = length buf /\
    ReadFrom_loop (k + fuel) buf pppoe =
      ReadFrom_loop fuel buf' (set_conn (after_reads k (conn pppoe)) pppoe).
Proof.
  revert buf pppoe. induction k as [|k IH]; intros buf pppoe Hsk.
  - exists buf. split; [done|]. rewrite after_reads_0. by destruct pppoe.
  - pose proof (Hsk 0%nat ltac:(lia)) as Hs0. rewrite Nat.add_0_r in Hs0.
    change (S k + fuel)%nat with (S (k + fuel)).
    rewrite ReadFrom_loop_skip by done.
    set (buf1 := _ ++ drop _ buf).
    assert (length buf1 = length buf) as Hlen by apply read_buffer_length.
    destruct (IH buf1 (set_conn (after_reads 1 (conn pppoe)) pppoe))
      as (buf' & Hl & Heq).
    + intros i Hi. rewrite Hlen. cbn [conn set_conn after_reads rx nrx].
      rewrite <- Nat.add_assoc. apply (Hsk (S i)). lia.
    + exists buf'. split; [lia|]. rewrite Heq. f_equal.
      cbn [conn set_conn]. rewrite after_reads_S. by destruct pppoe.
Qed.

Lemma ReadFrom_loop_sound (fuel : nat) (buf out : bytes) (pppoe q : PPPoE)
  (n : Z) (ep : Endpoint) :
  ReadFrom_loop fuel buf pppoe = Some (Done (n, Some ep, None) q, out) ->
  exists k,
    (k < fuel)%nat /\
    (forall i, (i < k)%nat ->
       skipped pppoe (length buf)
         (rx (conn pppoe) (nrx (conn pppoe) + i)%nat) = true) /\
    taken pppoe (length buf) (rx (conn pppoe) (nrx (conn pppoe) + k)%nat)
      = true.
Proof.
  revert buf pppoe. induction fuel as [|fuel IH]; intros buf pppoe Hr; [done|].
  destruct (rr_err (rx (conn pppoe) (nrx (conn pppoe)))) as [e|] eqn:He.
  { by rewrite (ReadFrom_loop_error _ _ _ e) in Hr. }
  destruct (read_classify pppoe (length buf) _ He) as [Hs|[Ht|[Hl Hn]]].
  - rewrite ReadFrom_loop_skip in Hr by done.
    set (buf1 := _ ++ drop _ buf) in Hr.
    assert (length buf1 = length buf) as Hlen by apply read_buffer_length.
    destruct (IH _ _ Hr) as (k & Hk & Hsk & Htk).
    rewrite Hlen in Hsk, Htk. cbn [conn set_conn after_reads rx nrx] in Hsk, Htk.
    exists (S k). split; [lia|]. split.
    + intros [|i] Hi; [by rewrite Nat.add_0_r|].
      specialize (Hsk i ltac:(lia)).
      by rewrite <- Nat.add_assoc in Hsk.
    + by rewrite <- Nat.add_assoc in Htk.
  - exists 0%nat. split; [lia|]. split; [intros i Hi; lia|].
    by rewrite Nat.add_0_r.
  - destruct (ReadFrom_loop_no_sender fuel buf pppoe He Hl Hn)
      as (q' & out' & Hp).
    by rewrite Hp in Hr.
Qed.

(** X15: whatever [ReadFrom] returns without an error is a session
    frame of the peer: the engine is Open, and the frame returned is
    the first one read, all frames before it having been passed over,
    that is at least six bytes long, comes from the peer's address, has
    the session code and carries the engine's session id.  The address
    returned is the peer's, with that session id. *)
Theorem ReadFrom_returns_only_session_frames (fuel : nat) (buf out : bytes)
  (pppoe q : PPPoE) (n : Z) (ep : Endpoint) :
  ReadFrom fuel buf pppoe = Some (Done (n, Some ep, None) q, out) ->
  state pppoe = pppoeStateOpen /\
  ep = {| L2EP := {| HwAddr := acMAC pppoe |};
          EpSessionID := sessionID pppoe |} /\
  exists k,
    let rr := rx (conn pppoe) (nrx (conn pppoe) + k)%nat in
    let data := take (length buf) (rr_buf rr) in
    (forall i, (i < k)%nat ->
       skipped pppoe (length buf)
         (rx (conn pppoe) (nrx (conn pppoe) + i)%nat) = true) /\
    taken pppoe (length buf) rr = true /\
    rr_l2ep rr = Some (acMAC pppoe) /\
    n = Z.of_nat (length data) - 6 /\ 0 <= n /\
    take (length data - 6) out = drop 6 data /\
    q = set_conn (after_reads (S k) (conn pppoe)) pppoe.
Proof.
  unfold ReadFrom. destruct (decide (state pppoe ≠ pppoeStateOpen)) as [|Hst];
    [done|].
  intros Hr. apply dec_stable in Hst. split; [done|].
  destruct (ReadFrom_loop_sound _ _ _ _ _ _ _ Hr) as (k & Hk & Hsk & Htk).
  destruct (ReadFrom_loop_first_match k fuel buf pppoe Hk Hsk Htk)
    as (out' & Hr' & Hl & Ht).
  rewrite Hr in Hr'. injection Hr' as -> -> -> ->.
  split; [done|]. exists k. cbn zeta.
  split; [done|]. split; [done|].
  unfold taken in Htk.
  repeat (apply andb_prop in Htk as [Htk ?]).
  repeat match goal with
         | H : bool_decide _ = true |- _ => apply bool_decide_eq_true in H
         end.
  split; [done|]. split; [done|]. split; [lia|]. done.
Qed.

(** X16: [ReadFrom] on an engine that is not Open fails at once and reads
    nothing.  On an Open engine any error of a read, a passed deadline
    included, ends it with the error wrapped, after the frames passed over
    before. *)
Theorem ReadFrom_fails (fuel : nat) (buf : bytes) (pppoe : PPPoE) :
  (state pppoe ≠ pppoeStateOpen ->
     ReadFrom fuel buf pppoe
       = Some (Done (0, None, Some ErrReadNotOpen) pppoe, buf)) /\
  (state pppoe = pppoeStateOpen ->
   forall k e,
     (k < fuel)%nat ->
     (forall i, (i < k)%nat ->
        skipped pppoe (length buf)
          (rx (conn pppoe) (nrx (conn pppoe) + i)%nat) = true) ->
     rr_err (rx (conn pppoe) (nrx (conn pppoe) + k)%nat) = Some e ->
     exists out,
       ReadFrom fuel buf pppoe =
         Some (Done (0, None, Some (ErrFailedRecv e))
                 (set_conn (after_reads (S k) (conn pppoe)) pppoe), out)).
Proof.
  unfold ReadFrom. split.
  - intros Hst. by rewrite decide_True.
  - intros Hst k e Hk Hsk He. rewrite decide_False by naive_solver.
    replace fuel with (k + S (fuel - S k))%nat by lia.
    destruct (ReadFrom_loop_skips k (S (fuel - S k)) buf pppoe Hsk)
      as (buf' & Hl & ->).
    rewrite (ReadFrom_loop_error _ _ _ e)
      by (cbn [conn set_conn after_reads rx nrx]; done).
    eexists. do 3 f_equal. cbn [conn set_conn].
    rewrite after_reads_add, Nat.add_1_r. by destruct pppoe.
Qed.

(** ** The tags of the PADR *)

Lemma NewPPPoE_serviceName (c : EtherConn) (options : list Modifier) :
  Forall (fun o => (exists d, o = WithDebug d) \/ (exists t, o = WithTags t))
    options ->
  serviceName (NewPPPoE c options) = EmptyString.
Proof.
  intros Ho. unfold NewPPPoE. cbn [serviceName].
  match goal with
  | |- serviceName (foldl _ ?r0 _) = _ =>
    assert (serviceName r0 = EmptyString) as Hr0 by done;
    generalize dependent r0
  end.
  induction Ho as [|o options Ho _ IH]; intros r0 Hr0; [done|].
  cbn [foldl]. apply IH.
  destruct Ho as [[d ->]|[[l|] ->]]; by destruct r0.
Qed.

(** X17: the PADR has exactly one service-name tag, the one built from
    the engine's service name, as its first tag; it keeps every configured
    tag of another type and echoes the AC-cookie and relay-session-id tags
    of the PADO.  A service-name tag given through [WithTags] is left out
    of it: an engine made by [NewPPPoE] asks for the empty service name
    in its PADR whatever tags it was given. *)
Theorem PADR_tags (pppoe : PPPoE) (pado : Packet) :
  TagTypeACCookie ≠ TagTypeServiceName ->
  TagTypeRelaySessionID ≠ TagTypeServiceName ->
  (forall ty, Forall (fun t => Type_ t = ty) (GetTag pado ty)) ->
  filter (fun t => Type_ t = TagTypeServiceName)
    (Tags (buildPADRWithPADO pppoe pado))
    = [serviceNameTag (serviceName pppoe)] /\
  head (Tags (buildPADRWithPADO pppoe pado))
    = Some (serviceNameTag (serviceName pppoe)) /\
  (forall t, t ∈ tags pppoe -> Type_ t ≠ TagTypeServiceName ->
             t ∈ Tags (buildPADRWithPADO pppoe pado)) /\
  (forall t, t ∈ GetTag pado TagTypeACCookie \/
             t ∈ GetTag pado TagTypeRelaySessionID ->
             t ∈ Tags (buildPADRWithPADO pppoe pado)) /\
  (forall c l,
     filter (fun t => Type_ t = TagTypeServiceName)
       (Tags (buildPADRWithPADO (NewPPPoE c [WithTags (Some l)]) pado))
       = [{| TagType := TagTypeServiceName; Value := [] |}]).
Proof.
  intros Hc Hr Hg.
  assert (forall q, filter (fun t => Type_ t = TagTypeServiceName)
                      (Tags (buildPADRWithPADO q pado))
                    = [serviceNameTag (serviceName q)]) as Hone.
  { intros q. unfold buildPADRWithPADO. cbn [Tags].
    rewrite !filter_app.
    rewrite (filter_type_none _ (GetTag pado TagTypeACCookie)),
            (filter_type_none _ (GetTag pado TagTypeRelaySessionID)),
            (filter_type_none _ (filter _ (tags q))).
    - rewrite filter_cons, decide_True by done. done.
    - apply Forall_forall. by intros t [Ht _]%list_elem_of_filter.
    - eapply Forall_impl; [apply Hg|]. intros t Ht. cbn in Ht. congruence.
    - eapply Forall_impl; [apply Hg|]. intros t Ht. cbn in Ht. congruence. }
  split; [apply Hone|]. split; [done|]. split; [|split].
  - intros t Ht Hty. unfold buildPADRWithPADO. cbn [Tags].
    rewrite !elem_of_app. left. left. right.
    by apply list_elem_of_filter.
  - intros t Ht. unfold buildPADRWithPADO. cbn [Tags].
    rewrite !elem_of_app. destruct Ht; [left; by right|by right].
  - intros c l. rewrite Hone. rewrite NewPPPoE_serviceName; [done|].
    constructor; [right; by eexists|constructor].
Qed.

End pppoe_more.

(** ** The send loop over the engine *)

Section send_over_engine.
Import pppoe.
Context `{D : pppoe.Decls}.

Lemma conn_WriteTo_engine (f : bytes) (pppoe : PPPoE) :
  lcp.conn_WriteTo f pppoe =
    match WriteTo f pppoe with
    | Done r q => (r, q)
    | Panicked q | Blocks q => ((0, None), q)
    end.
Proof. reflexivity. Qed.

Lemma WriteTo_all_open (fs pkts : list bytes) (pppoe : PPPoE) :
  state pppoe = pppoeStateOpen ->
  Forall2 (fun f pk => Packet_Serialize (session_pkt (sessionID pppoe) f) = Ok pk)
    fs pkts ->
  (forall i, (i < length fs)%nat ->
             tx (conn pppoe) (ntx (conn pppoe) + i)%nat = None) ->
  exists q,
    lcp.WriteTo_all fs pppoe = ([], q) /\
    trace (conn q) =
      trace (conn pppoe)
        ++ map (fun pk => EvWritePktTo pk EtherTypePPPoESession (acMAC pppoe))
             pkts /\
    state q = pppoeStateOpen.
Proof.
  revert pkts pppoe.
  induction fs as [|f fs IH]; intros pkts pppoe Hst Hf Ht.
  - apply Forall2_nil_inv_l in Hf as ->. exists pppoe. cbn.
    by rewrite app_nil_r.
  - apply Forall2_cons_inv_l in Hf as (pk & pks & Hs & Hfs & ->).
    cbn [lcp.WriteTo_all]. rewrite conn_WriteTo_engine.
    rewrite (WriteTo_open pppoe f pk); try done;
      [|specialize (Ht 0%nat); rewrite Nat.add_0_r in Ht; apply Ht; cbn; lia].
    edestruct (IH pks (set_conn
                         (WritePktTo pk EtherTypePPPoESession (acMAC pppoe)
                            (conn pppoe)).2 pppoe))
      as (q & Hq & Htr & Hst'); [done|exact Hfs| |].
    { intros i Hi. cbn [conn set_conn WritePktTo snd tx ntx].
      replace (S (ntx (conn pppoe)) + i)%nat
        with (ntx (conn pppoe) + S i)%nat by lia.
      apply Ht. cbn. lia. }
    rewrite Hq.
    exists q. split; [done|]. split; [|done].
    rewrite Htr. cbn. by rewrite <- app_assoc.
Qed.

Lemma WriteTo_all_not_open (fs : list bytes) (pppoe : PPPoE) :
  state pppoe ≠ pppoeStateOpen ->
  lcp.WriteTo_all fs pppoe = (replicate (length fs) ErrNotOpen, pppoe).
Proof.
  intros Hst. induction fs as [|f fs IH]; [done|].
  cbn [lcp.WriteTo_all]. rewrite conn_WriteTo_engine.
  rewrite WriteTo_not_open by done. rewrite IH. done.
Qed.

(** X18: the send loop run over the engine as its connection.  On an
    Open engine every frame queued on the send channel goes out as one
    session packet with the engine's session id to the peer, in the order
    of the queue.  On an engine that is not Open every queued frame is
    taken from the channel and lost, the not-open error being logged for
    each, and nothing is written. *)
Theorem send_over_engine (fs : list bytes) (s : lcp.PPP) (pppoe : PPPoE)
  (q : nat) (ch : lcp.Chan) :
  lcp.sendChan s = Some q ->
  lcp.chans s !! q = Some ch ->
  lcp.buf ch = fs ->
  (state pppoe = pppoeStateOpen ->
   forall pkts,
     Forall2 (fun f pk =>
                Packet_Serialize (session_pkt (sessionID pppoe) f) = Ok pk)
       fs pkts ->
     (forall i, (i < length fs)%nat ->
                tx (conn pppoe) (ntx (conn pppoe) + i)%nat = None) ->
     exists s' p',
       lcp.send (length fs) s pppoe = Done [] (s', p') /\
       lcp.buf <$> lcp.chans s' !! q = Some [] /\
       trace (conn p') =
         trace (conn pppoe)
           ++ map (fun pk => EvWritePktTo pk EtherTypePPPoESession
                               (acMAC pppoe)) pkts) /\
  (state pppoe ≠ pppoeStateOpen ->
   exists s',
     lcp.send (length fs) s pppoe
       = Done (replicate (length fs) ErrNotOpen) (s', pppoe) /\
     lcp.buf <$> lcp.chans s' !! q = Some []).
Proof.
  intros Hq Hc Hb.
  destruct (send_drains fs [] s pppoe q ch Hq Hc)
    as [Hsend _]; [by rewrite app_nil_r|].
  split.
  - intros Hst pkts Hf Ht.
    destruct (WriteTo_all_open fs pkts pppoe Hst Hf Ht) as (p' & Hw & Htr & _).
    rewrite Hw in Hsend. do 2 eexists. split; [exact Hsend|].
    split; [|done]. cbn. by rewrite lookup_insert_eq.
  - intros Hst. rewrite WriteTo_all_not_open in Hsend by done.
    eexists. split; [exact Hsend|]. cbn. by rewrite lookup_insert_eq.
Qed.

End send_over_engine.

(** ** The TUN interface *)

Section tun_properties.
Import lcp.
Context `{D : lcp.Decls}.

(** X19: an IP packet of at least 20 bytes read from the TUN device goes
    on the send channel as one PPP frame, the IPv4 number before a packet
    of version 4 and the IPv6 number before one of version 6, followed by
    the packet unchanged.  That frame parses back to the number and the
    packet, and a multiplexer that has a channel registered for the number
    hands exactly the packet to it. *)
Theorem send_round_wraps (buf rest : bytes) (b0 : byte) (proto : Z)
  (s : PPP) (q : nat) (cq : Chan) :
  buf = b0 :: rest ->
  (20 <= length buf)%nat ->
  (Z.shiftr (Z_of_byte b0) 4 = 4 /\ proto = ProtoIPv4) \/
  (Z.shiftr (Z_of_byte b0) 4 = 6 /\ proto = ProtoIPv6) ->
  0 <= proto < 65536 ->
  chans s !! q = Some cq -> closed cq = false ->
  (length (lcp.buf cq) < cap cq)%nat ->
  datapath.send_round (Some q) buf s =
    Done tt (set_chans
               (<[q := pushed cq (binary.PutUint16 proto ++ buf)]> (chans s)) s)
  /\
  PPPPacket_Parse (binary.PutUint16 proto ++ buf) =
    Ok {| Proto := proto; Payload := NewStaticSerializer buf |} /\
  (forall t r c,
     relayChanListLock t ≠ WLocked ->
     relayChanList t !! proto = Some r ->
     chans t !! r = Some c -> closed c = false ->
     (length (lcp.buf c) < cap c)%nat ->
     relay (binary.PutUint16 proto ++ buf) t =
       Done [binary.PutUint16 proto ++ buf]
         (set_chans (<[r := pushed c buf]> (chans t)) t)).
Proof.
  intros Hb Hlen Hv Hp Hc Ho Hl.
  assert (binary.Uint16 (take 2 (binary.PutUint16 proto ++ buf)) = proto)
    as Hu by (apply (Uint16_PutUint16 proto []); done).
  split; [|split].
  - unfold datapath.send_round, datapath._minimumFrameSize.
    rewrite decide_False by lia. subst buf. cbv beta iota zeta.
    destruct Hv as [[Hv ->]|[Hv ->]]; rewrite Hv.
    + rewrite decide_True by done.
      unfold PPPPacket_Serialize, Serialize, StaticSerializer_Serialize.
      cbn [NewPPPPkt Payload Proto static_bytes].
      by rewrite (chan_send_ready s q cq).
    + rewrite decide_False by done. rewrite decide_True by done.
      unfold PPPPacket_Serialize, Serialize, StaticSerializer_Serialize.
      cbn [NewPPPPkt Payload Proto static_bytes].
      by rewrite (chan_send_ready s q cq).
  - unfold PPPPacket_Parse.
    rewrite decide_False by (rewrite length_app; cbn; lia).
    by rewrite Hu.
  - intros t r c Hw Hm Hct Hot Hlt.
    rewrite (relay_deliver _ t r c); try done.
    + rewrite length_app. cbn. lia.
    + by rewrite Hu.
Qed.

(** X20: a packet shorter than 20 bytes, or one whose version is neither
    4 nor 6, is dropped: nothing is queued and nothing else changes.
    With a nil send channel, as the interface has when no address was
    assigned, a packet that would be forwarded blocks the loop instead. *)
Theorem send_round_drops (buf : bytes) (sc : chanref) (s : PPP) :
  ((length buf < 20)%nat -> datapath.send_round sc buf s = Done tt s) /\
  (forall b0 rest,
     buf = b0 :: rest ->
     Z.shiftr (Z_of_byte b0) 4 ≠ 4 -> Z.shiftr (Z_of_byte b0) 4 ≠ 6 ->
     datapath.send_round sc buf s = Done tt s) /\
  (forall b0 rest,
     buf = b0 :: rest -> (20 <= length buf)%nat ->
     Z.shiftr (Z_of_byte b0) 4 = 4 \/ Z.shiftr (Z_of_byte b0) 4 = 6 ->
     datapath.send_round None buf s = Blocks s).
Proof.
  unfold datapath.send_round, datapath._minimumFrameSize.
  split; [|split].
  - intros Hl. by rewrite decide_True.
  - intros b0 rest -> H4 H6. case_decide; [done|].
    by rewrite decide_False, decide_False.
  - intros b0 rest Hb Hl Hv. rewrite decide_False by lia. subst buf.
    cbv beta iota zeta. destruct Hv as [Hv|Hv]; rewrite Hv.
    + by rewrite decide_True.
    + rewrite decide_False by done. by rewrite decide_True.
Qed.

End tun_properties.

(** ** The further properties on concrete runs *)

Lemma PPPPacket_Serialize_Parse_witness :
  lcp.PPPPacket_Parse [x00; x21; x45; x00] =
    Ok {| lcp.Proto := 0x21;
          lcp.Payload := lcp.NewStaticSerializer [x45; x00] |}.
Proof.
  destruct (PPPPacket_Serialize_Parse (H := lcp.StaticSerializer_Serialize)
              (lcp.NewStaticSerializer [x45; x00]) 0x21 [x45; x00])
    as (b & Hs & _ & Hp & _).
  - lia.
  - reflexivity.
  - vm_compute in Hs. injection Hs as <-. apply Hp. discriminate.
Defined.

Lemma relay_each_fifo_witness :
  lcp.relay_each [[x00; x21; x01]; [x00; x21; x02]] registered_once =
    Done tt
      (lcp.set_chans
         (<[1%nat := {| lcp.buf := [[x01]; [x02]]; lcp.closed := false;
                        lcp.cap := 128 |}]> (lcp.chans registered_once))
         registered_once).
Proof.
  apply (relay_each_fifo [[x00; x21; x01]; [x00; x21; x02]] 0x21
           registered_once 1%nat
           {| lcp.buf := []; lcp.closed := false; lcp.cap := 128 |}).
  - vm_compute. discriminate.
  - reflexivity.
  - reflexivity.
  - reflexivity.
  - repeat constructor; simpl; lia.
  - simpl. lia.
Defined.

Lemma relay_full_blocks_registry_witness :
  exists s',
    lcp.relay [x00; x21; x01] registered_full = Blocks s' /\
    (exists s2, lcp.Register 0x57 s' = Blocks s2) /\
    (exists s2, lcp.UnRegister 0x21 s' = Blocks s2).
Proof.
  destruct (relay_full_blocks_registry [x00; x21; x01] registered_full 1%nat
              {| lcp.buf := replicate 128 [x00]; lcp.closed := false;
                 lcp.cap := 128 |})
    as (s' & Hr & _ & _ & _ & Hb).
  - simpl. lia.
  - vm_compute. discriminate.
  - reflexivity.
  - reflexivity.
  - reflexivity.
  - simpl. lia.
  - exists s'. split; [exact Hr|]. split.
    + exact (proj1 (Hb 0x57)).
    + exact (proj2 (Hb 0x21)).
Defined.

Lemma registry_never_holds_closed_channel_witness :
  lcp.registry_ok registered_once /\
  lcp.registry_ok (lcp.final (lcp.Register 0x57 registered_once)) /\
  lcp.registry_ok (lcp.final (lcp.UnRegister 0x21 registered_once)) /\
  lcp.registry_ok (lcp.final (lcp.relay [x00; x21; x45] registered_once)) /\
  lcp.registry_ok
    (lcp.final
       (lcp.sendProtocolRejct (D := lcp_decls) [x00; xff; x01]
          registered_once)) /\
  lcp.registry_ok
    (lcp.final
       (lcp.dispatch (D := lcp_decls) [x00; xff; x01] registered_once)).
Proof.
  pose proof (registry_never_holds_closed_channel (D := lcp_decls)
                lcp.NewPPP registry_ok_NewPPP) as (Hreg & _).
  assert (lcp.registry_ok registered_once) as Hok by exact (Hreg 0x21).
  pose proof (registry_never_holds_closed_channel (D := lcp_decls)
                registered_once Hok) as (Hr & Hu & Hl & Hj & Hd).
  split; [exact Hok|].
  split; [exact (Hr 0x57)|].
  split; [exact (Hu 0x21)|].
  split; [exact (Hl [x00; x21; x45])|].
  split; [exact (Hj [x00; xff; x01])|].
  exact (Hd [x00; xff; x01]).
Defined.

Lemma Register_twice_orphans_witness :
  exists s1 s2 s3,
    lcp.Register 0x21 lcp.NewPPP = Done (Some 0%nat, Some 1%nat) s1 /\
    lcp.Register 0x21 s1 = Done (Some 0%nat, Some 2%nat) s2 /\
    lcp.relay [x00; x21; x45] s2 = Done [[x00; x21; x45]] s3 /\
    lcp.chans s3 !! 1%nat =
      Some {| lcp.buf := []; lcp.closed := false; lcp.cap := 128 |} /\
    lcp.chans s3 !! 2%nat =
      Some {| lcp.buf := [[x45]]; lcp.closed := false; lcp.cap := 128 |}.
Proof.
  destruct (Register_twice_orphans 0x21 [x00; x21; x45] lcp.NewPPP)
    as (s1 & s2 & s3 & H1 & H2 & _ & H3 & H4 & H5).
  - reflexivity.
  - simpl. lia.
  - reflexivity.
  - exists s1, s2, s3. repeat (split; [assumption|]). assumption.
Defined.

Lemma Register_UnRegister_witness :
  exists s1 s2,
    lcp.Register 0x21 lcp.NewPPP = Done (Some 0%nat, Some 1%nat) s1 /\
    lcp.UnRegister 0x21 s1 = Done tt s2 /\
    lcp.chans s2 !! 1%nat =
      Some {| lcp.buf := []; lcp.closed := true; lcp.cap := 128 |} /\
    lcp.relay [x00; x21; x45] s2 = Done [[x00; x21; x45]] s2.
Proof.
  destruct (Register_UnRegister 0x21 [x00; x21; x45] lcp.NewPPP)
    as (s1 & s2 & H1 & H2 & _ & H3 & _ & H4).
  - reflexivity.
  - simpl. lia.
  - reflexivity.
  - exists s1, s2. repeat (split; [assumption|]). assumption.
Defined.


Lemma dispatch_delivers_and_rejects_witness :
  exists s',
    lcp.dispatch (D := lcp_decls) [x00; xff; x01; x02] registered_unknown
      = Done tt s' /\
    lcp.chans s' !! 1%nat =
      Some {| lcp.buf := [[x01; x02]]; lcp.closed := false; lcp.cap := 128 |} /\
    lcp.chans s' !! 0%nat =
      Some {| lcp.buf := [[xc0; x21; x08; x01; x00; x0a;
                           x00; xff; x00; xff; x01; x02]];
              lcp.closed := false; lcp.cap := 128 |}.
Proof.
  destruct (dispatch_delivers_and_rejects (D := lcp_decls)
              [x00; xff; x01; x02] registered_unknown 1%nat 0%nat
              {| lcp.buf := []; lcp.closed := false; lcp.cap := 128 |}
              {| lcp.buf := []; lcp.closed := false; lcp.cap := 128 |}
              [x08; x01; x00; x0a; x00; xff; x00; xff; x01; x02])
    as (s' & Hd & Hr & Hq).
  - simpl. lia.
  - vm_compute. discriminate.
  - reflexivity.
  - reflexivity.
  - reflexivity.
  - simpl. lia.
  - reflexivity.
  - lia.
  - reflexivity.
  - reflexivity.
  - simpl. lia.
  - apply (bool_decide_unpack _). vm_compute. exact I.
  - reflexivity.
  - exists s'. split; [exact Hd|]. split; [exact Hr|exact Hq].
Defined.

Lemma send_drains_in_order_witness :
  exists s' p',
    lcp.send (H := PPPoE_PacketConn (D := pppoe_decls)) 2
      (queued [[x01]; [x02; x03]; [x04]]) open_engine
      = Done [] (s', p') /\
    lcp.buf <$> lcp.chans s' !! 0%nat = Some [[x04]].
Proof.
  destruct (send_drains_in_order (H := PPPoE_PacketConn (D := pppoe_decls))
              [[x01]; [x02; x03]] [[x04]]
              (queued [[x01]; [x02; x03]; [x04]]) open_engine 0%nat
              {| lcp.buf := [[x01]; [x02; x03]; [x04]]; lcp.closed := false;
                 lcp.cap := 128 |}) as [Hs _].
  - reflexivity.
  - reflexivity.
  - reflexivity.
  - do 2 eexists. split.
    + etransitivity; [exact Hs|]. vm_compute. reflexivity.
    + vm_compute. reflexivity.
Defined.

Lemma getResponse_returns_first_match_witness :
  exists q,
    pppoe.getResponse (D := pppoe_decls)
      (pppoe.NewPPPoE (D := pppoe_decls)
         (scripted [rx_timeout; rx_packet (pads_pkt 7) ac_mac;
                    rx_packet pado_pkt ac_mac] []) [])
      (pppoe.buildPADI (D := pppoe_decls) idle_engine) 0x07
      [xff; xff; xff; xff; xff; xff]
    = Done (Ok (pado_pkt, ac_mac)) q /\
    pppoe.ntx (pppoe.conn q) = 3%nat.
Proof.
  eexists. split.
  - apply (getResponse_returns_first_match (D := pppoe_decls) _ _ pado_pkt
             _ _ ac_mac [x11; x09; x00; x00; x00; x04; x01; x01; x00; x00]
             2%nat).
    + reflexivity.
    + vm_compute. lia.
    + vm_compute. reflexivity.
    + reflexivity.
    + reflexivity.
    + vm_compute. reflexivity.
    + reflexivity.
    + reflexivity.
  - reflexivity.
Defined.

Lemma getResponse_transport_error_witness :
  (exists q,
     pppoe.getResponse (D := pppoe_decls)
       (pppoe.NewPPPoE (D := pppoe_decls) (scripted [] [1%nat]) [])
       (pppoe.buildPADI (D := pppoe_decls) idle_engine) 0x07
       [xff; xff; xff; xff; xff; xff]
     = Done (Err pppoe.ErrIO) q /\
     pppoe.ntx (pppoe.conn q) = 2%nat /\ pppoe.nrx (pppoe.conn q) = 1%nat) /\
  (exists q,
     pppoe.getResponse (D := pppoe_decls)
       (pppoe.NewPPPoE (D := pppoe_decls) (scripted [rx_timeout; rx_error] []) [])
       (pppoe.buildPADI (D := pppoe_decls) idle_engine) 0x07
       [xff; xff; xff; xff; xff; xff]
     = Done (Err (pppoe.ErrRecvResponse pppoe.ErrIO)) q /\
     pppoe.ntx (pppoe.conn q) = 2%nat /\ pppoe.nrx (pppoe.conn q) = 2%nat).
Proof.
  split.
  - destruct (getResponse_transport_error (D := pppoe_decls)
                (pppoe.NewPPPoE (D := pppoe_decls) (scripted [] [1%nat]) [])
                (pppoe.buildPADI (D := pppoe_decls) idle_engine) 0x07
                [xff; xff; xff; xff; xff; xff]
                [x11; x09; x00; x00; x00; x04; x01; x01; x00; x00]
                1%nat pppoe.ErrIO) as [Hw _].
    + reflexivity.
    + vm_compute. lia.
    + vm_compute. reflexivity.
    + eexists. split; [apply Hw; reflexivity|]. split; reflexivity.
  - destruct (getResponse_transport_error (D := pppoe_decls)
                (pppoe.NewPPPoE (D := pppoe_decls)
                   (scripted [rx_timeout; rx_error] []) [])
                (pppoe.buildPADI (D := pppoe_decls) idle_engine) 0x07
                [xff; xff; xff; xff; xff; xff]
                [x11; x09; x00; x00; x00; x04; x01; x01; x00; x00]
                1%nat pppoe.ErrIO) as [_ Hr].
    + reflexivity.
    + vm_compute. lia.
    + vm_compute. reflexivity.
    + eexists. split; [apply Hr; reflexivity|]. split; reflexivity.
Defined.

Lemma Dial_handshake_witness :
  exists p',
    pppoe.Dial (D := pppoe_decls)
      (pppoe.NewPPPoE (D := pppoe_decls)
         (scripted [rx_timeout; rx_packet pado_pkt ac_mac;
                    rx_packet pado_pkt ac_mac;
                    rx_packet (pads_pkt 0x1234) other_mac] []) [])
    = Done None p' /\
    pppoe.state p' = pppoe.pppoeStateOpen /\
    pppoe.sessionID p' = 0x1234 /\ pppoe.acMAC p' = ac_mac /\
    pppoe.ntx (pppoe.conn p') = 4%nat.
Proof.
  destruct (Dial_handshake (D := pppoe_decls)
              (pppoe.NewPPPoE (D := pppoe_decls)
                 (scripted [rx_timeout; rx_packet pado_pkt ac_mac;
                            rx_packet pado_pkt ac_mac;
                            rx_packet (pads_pkt 0x1234) other_mac] []) [])
              pado_pkt (pads_pkt 0x1234) ac_mac other_mac
              [x11; x09; x00; x00; x00; x04; x01; x01; x00; x00]
              [x11; x19; x00; x00; x00; x0a; x01; x01; x00; x00;
               x01; x04; x00; x02; xaa; xbb]
              1%nat 1%nat) as (p' & Hc & Hm & Hopen & _).
  - reflexivity.
  - vm_compute. lia.
  - repeat split; vm_compute; reflexivity.
  - reflexivity.
  - vm_compute. lia.
  - repeat split; vm_compute; reflexivity.
  - destruct Hopen as (Hd & Hst & Hsid); [vm_compute; discriminate|].
    exists p'. split; [exact Hd|]. split; [exact Hst|].
    split; [exact Hsid|]. split; [exact Hm|]. rewrite Hc. reflexivity.
Defined.

Lemma Dial_failure_witness :
  (exists p',
     pppoe.Dial (D := pppoe_decls) open_engine
       = Done (Some (pppoe.ErrNoResponse 0x07)) p' /\
     pppoe.state p' = pppoe.pppoeStateClosed /\
     pppoe.acMAC p' = [] /\ pppoe.sessionID p' = 0x1234) /\
  (exists p',
     pppoe.Dial (D := pppoe_decls)
       (pppoe.NewPPPoE (D := pppoe_decls)
          (scripted [rx_packet pado_pkt ac_mac; rx_error] []) [])
       = Done (Some (pppoe.ErrRecvResponse pppoe.ErrIO)) p' /\
     pppoe.state p' = pppoe.pppoeStateClosed /\
     pppoe.acMAC p' = ac_mac).
Proof.
  split.
  - destruct (Dial_failure (D := pppoe_decls) open_engine) as [Hfirst _].
    edestruct Hfirst as (p' & Hd & Hst & Hm & Hsid & _).
    + vm_compute. reflexivity.
    + exists p'. split; [exact Hd|]. split; [exact Hst|].
      split; [exact Hm|exact Hsid].
  - destruct (Dial_failure (D := pppoe_decls)
                (pppoe.NewPPPoE (D := pppoe_decls)
                   (scripted [rx_packet pado_pkt ac_mac; rx_error] []) []))
      as [_ Hsecond].
    edestruct Hsecond as (p' & Hd & Hst & Hm & _).
    + vm_compute. reflexivity.
    + vm_compute. reflexivity.
    + exists p'. split; [exact Hd|]. split; [exact Hst|exact Hm].
Defined.

Lemma ReadFrom_takes_first_match_witness :
  exists q out,
    pppoe.ReadFrom (D := pppoe_decls) 4 (replicate 16 x00) reading_engine =
      Some (Done (2, Some {| pppoe.L2EP := {| pppoe.HwAddr := ac_mac |};
                             pppoe.EpSessionID := 0x1234 |}, None) q, out) /\
    take 2 out = [xc0; x21] /\
    pppoe.nrx (pppoe.conn q) = 6%nat.
Proof.
  destruct (ReadFrom_takes_first_match (D := pppoe_decls) 3 4
              (replicate 16 x00) reading_engine) as (out & Hr & _ & Ht).
  - reflexivity.
  - lia.
  - intros i Hi.
    destruct i as [|[|[|i]]]; [vm_compute; reflexivity..|lia].
  - vm_compute. reflexivity.
  - do 2 eexists. split; [exact Hr|]. split; [exact Ht|reflexivity].
Defined.

Lemma ReadFrom_returns_only_session_frames_witness :
  exists n ep q out,
    pppoe.ReadFrom (D := pppoe_decls) 9 (replicate 16 x00) reading_engine =
      Some (Done (n, Some ep, None) q, out) /\
    pppoe.HwAddr (pppoe.L2EP ep) = ac_mac /\
    pppoe.EpSessionID ep = 0x1234 /\ 0 <= n.
Proof.
  eassert (H : pppoe.ReadFrom (D := pppoe_decls) 9 (replicate 16 x00)
                 reading_engine = Some (Done (_, Some _, None) _, _)).
  { vm_compute. reflexivity. }
  destruct (ReadFrom_returns_only_session_frames (D := pppoe_decls)
              _ _ _ _ _ _ _ H) as (_ & Hep & k & _ & _ & _ & _ & Hn & _).
  do 4 eexists. split; [exact H|].
  split; [reflexivity|]. split; [reflexivity|]. exact Hn.
Defined.

Lemma ReadFrom_fails_witness :
  pppoe.ReadFrom (D := pppoe_decls) 1 (replicate 16 x00) idle_engine =
    Some (Done (0, None, Some pppoe.ErrReadNotOpen) idle_engine,
          replicate 16 x00) /\
  exists q out,
    pppoe.ReadFrom (D := pppoe_decls) 1 (replicate 16 x00) open_engine =
      Some (Done (0, None, Some (pppoe.ErrFailedRecv pppoe.ErrTimeOut)) q,
            out).
Proof.
  split.
  - destruct (ReadFrom_fails (D := pppoe_decls) 1 (replicate 16 x00)
                idle_engine) as [Hclosed _].
    apply Hclosed. discriminate.
  - destruct (ReadFrom_fails (D := pppoe_decls) 1 (replicate 16 x00)
                open_engine) as [_ Hopen].
    destruct (Hopen ltac:(reflexivity) 0%nat pppoe.ErrTimeOut) as (out & Hr).
    + lia.
    + intros i Hi. lia.
    + reflexivity.
    + do 2 eexists. exact Hr.
Defined.

Lemma PADR_tags_witness :
  filter (fun t => pppoe.Type_ t = 0x0101)
    (pppoe.Tags
       (pppoe.buildPADRWithPADO (D := pppoe_decls)
          (pppoe.NewPPPoE (D := pppoe_decls) (scripted [] [])
             [pppoe.WithTags
                (Some [ {| pppoe.TagType := 0x0101;
                           pppoe.Value := [x69; x73; x70] |};
                        {| pppoe.TagType := 0x0105; pppoe.Value := [x01] |} ])])
          pado_pkt))
  = [ {| pppoe.TagType := 0x0101; pppoe.Value := [] |} ].
Proof.
  destruct (PADR_tags (D := pppoe_decls) idle_engine pado_pkt)
    as (_ & _ & _ & _ & Hmade).
  - discriminate.
  - discriminate.
  - intros ty. apply Forall_forall. intros t Ht.
    apply list_elem_of_filter in Ht. exact (proj1 Ht).
  - apply Hmade.
Defined.

Lemma send_over_engine_witness :
  (exists s' p',
     lcp.send (H := PPPoE_PacketConn (D := pppoe_decls)) 2
       (queued [[xc0; x21]; [x00; x21]]) open_engine = Done [] (s', p') /\
     pppoe.trace (pppoe.conn p') =
       pppoe.trace (pppoe.conn open_engine)
         ++ [pppoe.EvWritePktTo [x11; x00; x12; x34; x00; x02; xc0; x21]
               0x8864 ac_mac;
             pppoe.EvWritePktTo [x11; x00; x12; x34; x00; x02; x00; x21]
               0x8864 ac_mac]) /\
  (exists s',
     lcp.send (H := PPPoE_PacketConn (D := pppoe_decls)) 2
       (queued [[xc0; x21]; [x00; x21]]) idle_engine
     = Done [pppoe.ErrNotOpen; pppoe.ErrNotOpen] (s', idle_engine)).
Proof.
  destruct (send_over_engine (D := pppoe_decls) [[xc0; x21]; [x00; x21]]
              (queued [[xc0; x21]; [x00; x21]]) open_engine 0%nat
              {| lcp.buf := [[xc0; x21]; [x00; x21]]; lcp.closed := false;
                 lcp.cap := 128 |}) as [Hopen _]; [reflexivity..|].
  destruct (send_over_engine (D := pppoe_decls) [[xc0; x21]; [x00; x21]]
              (queued [[xc0; x21]; [x00; x21]]) idle_engine 0%nat
              {| lcp.buf := [[xc0; x21]; [x00; x21]]; lcp.closed := false;
                 lcp.cap := 128 |}) as [_ Hidle]; [reflexivity..|].
  split.
  - destruct (Hopen ltac:(reflexivity)
                [[x11; x00; x12; x34; x00; x02; xc0; x21];
                 [x11; x00; x12; x34; x00; x02; x00; x21]])
      as (s' & p' & Hs & _ & Htr).
    + repeat constructor.
    + intros i Hi. reflexivity.
    + exists s', p'. split; [exact Hs|exact Htr].
  - destruct Hidle as (s' & Hs & _); [discriminate|].
    exists s'. exact Hs.
Defined.

Lemma send_round_wraps_witness :
  exists s',
    datapath.send_round (D := lcp_decls) (Some 0%nat)
      (x45 :: replicate 19 x00) lcp.NewPPP = Done tt s' /\
    lcp.buf <$> lcp.chans s' !! 0%nat
      = Some [[x00; x21] ++ x45 :: replicate 19 x00] /\
    lcp.PPPPacket_Parse ([x00; x21] ++ x45 :: replicate 19 x00) =
      Ok {| lcp.Proto := 0x21;
            lcp.Payload := lcp.NewStaticSerializer (x45 :: replicate 19 x00) |}.
Proof.
  destruct (send_round_wraps (D := lcp_decls) (x45 :: replicate 19 x00)
              (replicate 19 x00) x45 0x21 lcp.NewPPP 0%nat
              {| lcp.buf := []; lcp.closed := false; lcp.cap := 128 |})
    as (Hs & Hp & _).
  - reflexivity.
  - simpl. lia.
  - left. split; reflexivity.
  - lia.
  - reflexivity.
  - reflexivity.
  - simpl. lia.
  - eexists. split; [exact Hs|]. split; [vm_compute; reflexivity|exact Hp].
Defined.

Lemma send_round_drops_witness :
  datapath.send_round (D := lcp_decls) (Some 0%nat) (replicate 19 x45)
    lcp.NewPPP = Done tt lcp.NewPPP /\
  datapath.send_round (D := lcp_decls) (Some 0%nat) (x55 :: replicate 39 x00)
    lcp.NewPPP = Done tt lcp.NewPPP /\
  datapath.send_round (D := lcp_decls) None (x60 :: replicate 19 x00)
    lcp.NewPPP = Blocks lcp.NewPPP.
Proof.
  split; [|split].
  - destruct (send_round_drops (D := lcp_decls) (replicate 19 x45)
                (Some 0%nat) lcp.NewPPP) as (Hshort & _).
    apply Hshort. simpl. lia.
  - destruct (send_round_drops (D := lcp_decls) (x55 :: replicate 39 x00)
                (Some 0%nat) lcp.NewPPP) as (_ & Hver & _).
    apply (Hver x55 (replicate 39 x00)); [reflexivity|discriminate..].
  - destruct (send_round_drops (D := lcp_decls) (x60 :: replicate 19 x00)
                None lcp.NewPPP) as (_ & _ & Hnil).
    apply (Hnil x60 (replicate 19 x00)); [reflexivity|simpl; lia|].
    right. reflexivity.
Defined.
